(** * stream-charts: the raster chart's incremental scene updater

    A shallow embedding of [src/app/charts/RasterChart.tsx] and of the
    modules it imports, together with the properties its specification
    states about them.

    Numbers.  A TypeScript [number] is an IEEE double.  The embedding
    idealises it as a rational ([Q]): sums, products and comparisons are
    exact, and the non-finite values of double arithmetic (infinities and
    NaN) have no counterpart.  Equality of numbers is [Qeq] ([==]).

    Scene graph.  The SVG document the chart mutates through d3 is an
    explicit record ([Chart]): the React refs of the component are fields
    of that record, and every d3 selection the code performs is a function
    over it.

    Selectors.  [updatePlot] finds the group of a series with the selector
    [#] followed by the name of the series.  The embedding has the pass
    twice: [updatePlot] takes every name for the id it selects, and
    [updatePlot_run] tells apart the names the selector engine reads as an
    id selector, the names that make it throw and the names that select
    something else, and it keeps apart the empty series list, for which
    the line height is a division by zero.  The two agree where every name
    is an identifier ([updatePlot_run_ids]). *)

From Stdlib Require Import QArith Qabs Qminmax Lqa Lia.
From Stdlib Require Import List String Ascii Bool Arith.
Import ListNotations.

Open Scope Q_scope.

(** ** Numbers *)

(** [x < y] as the boolean the code branches on ([y > x] likewise). *)
Definition Qlt_bool (x y : Q) : bool := negb (Qle_bool y x).

(** [Math.abs], [Math.min], [Math.max]. *)
Definition Math_abs (x : Q) : Q := Qabs x.
Definition Math_min (x y : Q) : Q := if Qle_bool x y then x else y.
Definition Math_max (x y : Q) : Q := if Qle_bool x y then y else x.

(** [array.length] as a number. *)
Definition length_num {A : Type} (l : list A) : Q := inject_Z (Z.of_nat (List.length l)).

(** [v || 0] for a lookup [v] that may be [undefined]: [undefined] and the
    (falsy) number zero both give [0]. *)
Definition orZero (v : option Q) : Q :=
  match v with
  | Some y => if Qeq_bool y 0 then 0 else y
  | None => 0
  end.

(** ** margins.ts *)

Module margins.

Record Margin := mkMargin { top : Q; right : Q; bottom : Q; left : Q }.

Record Dimensions := mkDimensions { dim_width : Q; dim_height : Q }.

Definition adjustedDimensions (width height : Q) (m : Margin) : Dimensions :=
  {| dim_width := width - left m - right m;
     dim_height := height - top m - bottom m |}.

End margins.

(** ** timeRange.ts *)

Module timeRange.

(** Modelled from the spec: the module [./timeRange] ([TimeRange],
    [TimeRangeType]) is imported by the chart but is not among the
    sources.  Spec section 3: a range is [{start, end}], with the invariant
    [start <= end]. *)
Record TimeRangeType := TimeRange { start : Q; end_ : Q }.

(** Modelled from the spec: [scale] of the missing [./timeRange].  Spec
    section 3: [scale(factor, pivot)] "rescales the window width by
    1/factor centered at pivot"; section 4.1: the result has "the same
    pivot-relative ratio of left/right span as before scaling, scaled by
    1/k".  Section 9 describes a zero factor as collapsing "the time window
    to zero width"; that case is written out. *)
Definition scale (factor pivot : Q) (r : TimeRangeType) : TimeRangeType :=
  if Qeq_bool factor 0 then TimeRange pivot pivot
  else TimeRange (pivot - (pivot - start r) / factor)
                 (pivot + (end_ r - pivot) / factor).

(** Modelled from the spec: [translate] of the missing [./timeRange].
    Spec section 3: [translate(deltaTime)] "shifts both bounds by the same
    delta (pan), without changing width". *)
Definition translate (deltaTime : Q) (r : TimeRangeType) : TimeRangeType :=
  TimeRange (start r + deltaTime) (end_ r + deltaTime).

(** The invariant of the data model, the width of a window, and equality
    of ranges (bounds equal as numbers). *)
Definition valid (r : TimeRangeType) : Prop := start r <= end_ r.

Definition span (r : TimeRangeType) : Q := end_ r - start r.

Definition same (r1 r2 : TimeRangeType) : Prop :=
  start r1 == start r2 /\ end_ r1 == end_ r2.

End timeRange.

(** ** datumSeries.ts *)

(** Modelled from the spec: the type [Datum] of [./datumSeries], which is
    not among the sources.  Spec section 3: "{ time: number, value: number }";
    the chart reads [datum.time] and [datum.value]. *)
Record Datum := mkDatum { time : Q; value : Q }.

(** Modelled from the spec: the type [Series] of the missing
    [./datumSeries].  Spec section 3: a name and an ordered sequence of
    data; the chart reads [series.name] and [series.data]. *)
Record Series := mkSeries { name : string; data : list Datum }.

(** ** The d3 contract the chart relies on *)

Module d3.

(** *** d3.scaleLinear, two-point domain and range, no clamping *)

Record ScaleLinear := mkScaleLinear {
  domain0 : Q; domain1 : Q; range0 : Q; range1 : Q }.

(** d3's [normalize(a, b)]: position of [x] in [[a, b]]; a degenerate
    interval maps everything to the midpoint. *)
Definition normalize (a b x : Q) : Q :=
  if Qeq_bool (b - a) 0 then 1 # 2 else (x - a) / (b - a).

(** d3's [interpolateNumber(a, b)(t)]. *)
Definition interpolate (a b t : Q) : Q := a * (1 - t) + b * t.

Definition apply (s : ScaleLinear) (x : Q) : Q :=
  interpolate (range0 s) (range1 s) (normalize (domain0 s) (domain1 s) x).

Definition invert (s : ScaleLinear) (y : Q) : Q :=
  interpolate (domain0 s) (domain1 s) (normalize (range0 s) (range1 s) y).

(** *** d3.scaleBand, no padding, align 0.5, no rounding *)

Record ScaleBand := mkScaleBand {
  band_domain : list string; band_range0 : Q; band_range1 : Q }.

(** [domain(names)] keeps the first occurrence of every name. *)
Fixpoint dedup (seen names : list string) : list string :=
  match names with
  | [] => []
  | n :: rest =>
      if existsb (String.eqb n) seen then dedup seen rest
      else n :: dedup (n :: seen) rest
  end.

Definition scaleBand (names : list string) (r0 r1 : Q) : ScaleBand :=
  {| band_domain := dedup [] names; band_range0 := r0; band_range1 := r1 |}.

Fixpoint index_of (n : string) (l : list string) : option nat :=
  match l with
  | [] => None
  | m :: rest =>
      if String.eqb n m then Some O
      else match index_of n rest with
           | Some i => Some (S i)
           | None => None
           end
  end.

(** The position of a name among the bands. *)
Definition band_index (s : ScaleBand) (n : string) : option nat :=
  index_of n (band_domain s).

Definition band_reverse (s : ScaleBand) : bool :=
  Qlt_bool (band_range1 s) (band_range0 s).

Definition band_lo (s : ScaleBand) : Q :=
  if band_reverse s then band_range1 s else band_range0 s.

Definition band_hi (s : ScaleBand) : Q :=
  if band_reverse s then band_range0 s else band_range1 s.

Definition band_count (s : ScaleBand) : Q := length_num (band_domain s).

Definition band_step (s : ScaleBand) : Q :=
  (band_hi s - band_lo s) / Math_max 1 (band_count s).

Definition band_start (s : ScaleBand) : Q :=
  band_lo s + (band_hi s - band_lo s - band_step s * band_count s) * (1 # 2).

(** [scale(name)]: the start of the band of [name], [undefined] for a
    name that is not in the domain. *)
Definition band (s : ScaleBand) (n : string) : option Q :=
  match band_index s n with
  | Some i =>
      let k := if band_reverse s
               then (List.length (band_domain s) - 1 - i)%nat else i in
      Some (band_start s + band_step s * inject_Z (Z.of_nat k))
  | None => None
  end.

End d3.

(** ** RasterChart.tsx *)

Import margins timeRange.

(** *** Styles and props

    The records hold what the component computes with after merging the
    parent's props over the defaults; attributes that are only passed
    through to SVG (fonts, fills, border radius) are left out. *)

Record SpikesStyle := mkSpikesStyle {
  spikes_margin : Q;
  spikes_color : string;
  spikes_lineWidth : Q;
  spikes_highlightColor : string;
  spikes_highlightWidth : Q }.

Record TooltipStyle := mkTooltipStyle {
  tooltip_visible : bool;
  paddingLeft : Q;
  paddingRight : Q;
  paddingTop : Q;
  paddingBottom : Q }.

Record LineMagnifierStyle := mkLineMagnifierStyle {
  magnifier_visible : bool;
  magnifier_width : Q }.

Record TrackerStyle := mkTrackerStyle { tracker_visible : bool }.

Record Props := mkProps {
  width : Q;
  height : Q;
  margin : Margin;
  spikesStyle : SpikesStyle;
  plotGridLines_visible : bool;
  tooltip : TooltipStyle;
  magnifier : LineMagnifierStyle;
  tracker : TrackerStyle;
  minTime : Q;
  maxTime : Q;
  seriesList : list Series }.

Definition defaultMargin : Margin :=
  {| top := 30; right := 20; bottom := 30; left := 50 |}.

Definition defaultSpikesStyle : SpikesStyle :=
  {| spikes_margin := 2; spikes_color := "#c95d15"; spikes_lineWidth := 2;
     spikes_highlightColor := "#d2933f"; spikes_highlightWidth := 4 |}.

Definition defaultTooltipStyle : TooltipStyle :=
  {| tooltip_visible := false; paddingLeft := 10; paddingRight := 10;
     paddingTop := 5; paddingBottom := 10 |}.

Definition defaultLineMagnifierStyle : LineMagnifierStyle :=
  {| magnifier_visible := false; magnifier_width := 75 |}.

Definition defaultTrackerStyle : TrackerStyle := {| tracker_visible := false |}.

(** *** The scene graph *)

(** The closure a spike's mouse handlers were created in: the props of the
    render that entered the line, and the series it belongs to. *)
Record Handlers := mkHandlers { h_props : Props; h_series : string }.

(** A [<line>] inside a series group.  [bound] is the datum d3 has bound
    to the element; [spikes_class] tells whether it carries the class
    [spikes-lines]. *)
Record SpikeLine := mkSpikeLine {
  bound : Datum;
  spikes_class : bool;
  x1 : Q; x2 : Q; y1 : Q; y2 : Q;
  stroke : string;
  stroke_width : Q;
  handlers : option Handlers }.

(** A [<g class="spikes-series" id=name>] and the lines it holds, in
    document order. *)
Record SeriesGroup := mkSeriesGroup { g_id : string; g_lines : list SpikeLine }.

Record GridLine := mkGridLine { gl_x1 : Q; gl_x2 : Q; gl_y1 : Q; gl_y2 : Q }.

(** [axesRef.current]: the scales of the two axes; the axis groups and the
    axis label exist in the document exactly when this is set. *)
Record Axes := mkAxes { xScale : d3.ScaleLinear; yScale : d3.ScaleBand }.

Record MagnifierRect := mkMagnifierRect {
  mag_x : Q; mag_width : Q; mag_y : Q; mag_height : Q; mag_opacity : Q }.

Record TrackerLine := mkTrackerLine {
  trk_x1 : Q; trk_x2 : Q; trk_y1 : Q; trk_y2 : Q; trk_opacity : Q }.

(** The listener registered for [mousemove] on the svg, with the props of
    the render that registered it. *)
Inductive MousemoveListener :=
| ShowMagnify (p : Props)
| ShowTracker (p : Props).

(** The elements of class [tooltip]. *)
Inductive TooltipElement :=
| TooltipRect (x y w h : Q)
| TooltipHeader (label : string) (x y : Q)
| TooltipText (d : Datum) (x y : Q).

(** The component instance: its refs and the part of the document they
    point into. *)
Record Chart := mkChart {
  container : bool;                       (* containerRef.current is set *)
  mainGRef : bool;                        (* the main <g> exists *)
  groups : list SeriesGroup;              (* series groups in the main <g> *)
  gridLines : list GridLine;
  axesRef : option Axes;
  magnifierRef : option MagnifierRect;
  trackerRef : option TrackerLine;
  onMousemove : option MousemoveListener;
  dragZoom : option Props;                (* closure of the drag/zoom listeners *)
  tooltipEls : list TooltipElement;
  tooltipRef : TooltipStyle;
  timeRangeRef : TimeRangeType;
  mouseCoordsRef : Q;
  zoomFactorRef : Q }.

Definition set_groups (gs : list SeriesGroup) (c : Chart) : Chart :=
  mkChart (container c) (mainGRef c) gs (gridLines c) (axesRef c)
    (magnifierRef c) (trackerRef c) (onMousemove c) (dragZoom c)
    (tooltipEls c) (tooltipRef c) (timeRangeRef c) (mouseCoordsRef c)
    (zoomFactorRef c).

Definition set_mainG (c : Chart) : Chart :=
  mkChart (container c) true (groups c) (gridLines c) (axesRef c)
    (magnifierRef c) (trackerRef c) (onMousemove c) (dragZoom c)
    (tooltipEls c) (tooltipRef c) (timeRangeRef c) (mouseCoordsRef c)
    (zoomFactorRef c).

Definition set_axes (a : Axes) (gl : list GridLine) (c : Chart) : Chart :=
  mkChart (container c) (mainGRef c) (groups c) gl (Some a)
    (magnifierRef c) (trackerRef c) (onMousemove c) (dragZoom c)
    (tooltipEls c) (tooltipRef c) (timeRangeRef c) (mouseCoordsRef c)
    (zoomFactorRef c).

Definition set_magnifier (m : option MagnifierRect) (l : option MousemoveListener)
    (c : Chart) : Chart :=
  mkChart (container c) (mainGRef c) (groups c) (gridLines c) (axesRef c)
    m (trackerRef c) l (dragZoom c)
    (tooltipEls c) (tooltipRef c) (timeRangeRef c) (mouseCoordsRef c)
    (zoomFactorRef c).

Definition set_tracker (t : option TrackerLine) (l : option MousemoveListener)
    (c : Chart) : Chart :=
  mkChart (container c) (mainGRef c) (groups c) (gridLines c) (axesRef c)
    (magnifierRef c) t l (dragZoom c)
    (tooltipEls c) (tooltipRef c) (timeRangeRef c) (mouseCoordsRef c)
    (zoomFactorRef c).

Definition set_dragZoom (p : Props) (c : Chart) : Chart :=
  mkChart (container c) (mainGRef c) (groups c) (gridLines c) (axesRef c)
    (magnifierRef c) (trackerRef c) (onMousemove c) (Some p)
    (tooltipEls c) (tooltipRef c) (timeRangeRef c) (mouseCoordsRef c)
    (zoomFactorRef c).

Definition set_tooltipEls (els : list TooltipElement) (c : Chart) : Chart :=
  mkChart (container c) (mainGRef c) (groups c) (gridLines c) (axesRef c)
    (magnifierRef c) (trackerRef c) (onMousemove c) (dragZoom c)
    els (tooltipRef c) (timeRangeRef c) (mouseCoordsRef c)
    (zoomFactorRef c).

Definition set_tooltipRef (t : TooltipStyle) (c : Chart) : Chart :=
  mkChart (container c) (mainGRef c) (groups c) (gridLines c) (axesRef c)
    (magnifierRef c) (trackerRef c) (onMousemove c) (dragZoom c)
    (tooltipEls c) t (timeRangeRef c) (mouseCoordsRef c)
    (zoomFactorRef c).

Definition set_timeRange (r : TimeRangeType) (c : Chart) : Chart :=
  mkChart (container c) (mainGRef c) (groups c) (gridLines c) (axesRef c)
    (magnifierRef c) (trackerRef c) (onMousemove c) (dragZoom c)
    (tooltipEls c) (tooltipRef c) r (mouseCoordsRef c)
    (zoomFactorRef c).

Definition set_mouseCoords (x : Q) (c : Chart) : Chart :=
  mkChart (container c) (mainGRef c) (groups c) (gridLines c) (axesRef c)
    (magnifierRef c) (trackerRef c) (onMousemove c) (dragZoom c)
    (tooltipEls c) (tooltipRef c) (timeRangeRef c) x
    (zoomFactorRef c).

Definition set_zoomFactor (k : Q) (c : Chart) : Chart :=
  mkChart (container c) (mainGRef c) (groups c) (gridLines c) (axesRef c)
    (magnifierRef c) (trackerRef c) (onMousemove c) (dragZoom c)
    (tooltipEls c) (tooltipRef c) (timeRangeRef c) (mouseCoordsRef c)
    k.

(** The component right after React has mounted the [<svg>] and before the
    first effect has run: the container ref is attached, the other refs
    hold their initial values. *)
Definition mounted (p : Props) : Chart :=
  {| container := true; mainGRef := false; groups := []; gridLines := [];
     axesRef := None; magnifierRef := None; trackerRef := None;
     onMousemove := None; dragZoom := None; tooltipEls := [];
     tooltipRef := tooltip p;
     timeRangeRef := TimeRange (minTime p) (maxTime p);
     mouseCoordsRef := 0; zoomFactorRef := 1 |}.

(** *** Geometry *)

Definition plotDimensions (p : Props) : Dimensions :=
  adjustedDimensions (width p) (height p) (margin p).

(** [spikeLineHeight()], for a series list that is not empty.  (For an
    empty one the code divides by the length 0 and gets [Infinity] or
    [NaN], the quotient of rationals is 0: see [CompletedNoSeries].) *)
Definition spikeLineHeight (p : Props) : Q :=
  dim_height (plotDimensions p) / length_num (seriesList p).

(** [mouseInPlotArea(x, y)]. *)
Definition mouseInPlotArea (p : Props) (x y : Q) : bool :=
  Qlt_bool (left (margin p)) x && Qlt_bool x (width p - right (margin p)) &&
  Qlt_bool (top (margin p)) y && Qlt_bool y (height p - bottom (margin p)).

(** *** Lines of a series *)

Fixpoint update_nth {A : Type} (i : nat) (f : A -> A) (l : list A) : list A :=
  match l, i with
  | [], _ => []
  | a :: rest, O => f a :: rest
  | a :: rest, S j => a :: update_nth j f rest
  end.

Definition line_at (c : Chart) (gi li : nat) : option SpikeLine :=
  match nth_error (groups c) gi with
  | Some g => nth_error (g_lines g) li
  | None => None
  end.

Definition set_lines (ls : list SpikeLine) (g : SeriesGroup) : SeriesGroup :=
  {| g_id := g_id g; g_lines := ls |}.

(** [d3.select(spike).attr('stroke', ..).attr('stroke-width', ..)] on the
    line at position [li] of group [gi]. *)
Definition restyle (color : string) (w : Q) (l : SpikeLine) : SpikeLine :=
  mkSpikeLine (bound l) (spikes_class l) (x1 l) (x2 l) (y1 l) (y2 l)
    color w (handlers l).

Definition restyle_at (gi li : nat) (color : string) (w : Q) (c : Chart) : Chart :=
  set_groups
    (update_nth gi (fun g => set_lines (update_nth li (restyle color w) (g_lines g)) g)
       (groups c)) c.

(** *** Tooltip *)

(** What the browser measures for the two tooltip texts ([getBBox()]);
    a measurement may be missing. *)
Record TextMetrics := mkTextMetrics {
  headerWidth : option Q; headerHeight : option Q;
  textWidth : option Q; textHeight : option Q }.

(** [tooltipX(time, textWidth)]; reads [axesRef.current!]. *)
Definition tooltipX (p : Props) (c : Chart) (t w : Q) : option Q :=
  match axesRef c with
  | None => None
  | Some a =>
      Some (Math_min (Math_max (d3.apply (xScale a) t) (w / 2))
                     (dim_width (plotDimensions p) - w / 2)
            + left (margin p) - w / 2 - paddingLeft (tooltip p))
  end.

(** [tooltipY(seriesName, textHeight)]; reads [axesRef.current!]. *)
Definition tooltipY (p : Props) (c : Chart) (seriesName : string) (h : Q) : option Q :=
  match axesRef c with
  | None => None
  | Some a =>
      let y := orZero (d3.band (yScale a) seriesName) + top (margin p)
               - paddingBottom (tooltip p) - h - paddingTop (tooltip p) in
      Some (if Qlt_bool 0 y then y
            else y + paddingBottom (tooltip p) + h + paddingTop (tooltip p)
                 + spikeLineHeight p)
  end.

(** [handleShowTooltip(datum, seriesName, spike)], with [spike] the line at
    ([gi], [li]).  [p] is the closure of the handler; the visibility and
    the paddings of the box are read through [tooltipRef]. *)
Definition handleShowTooltip (p : Props) (c : Chart) (datum : Datum)
    (seriesName : string) (gi li : nat) (m : TextMetrics) : option Chart :=
  if negb (tooltip_visible (tooltipRef c)) then Some c
  else
    let c1 := restyle_at gi li (spikes_highlightColor (spikesStyle p))
                (spikes_highlightWidth (spikesStyle p)) c in
    if tooltip_visible (tooltipRef c1) then
      let tooltipWidth := Math_max (orZero (headerWidth m)) (orZero (textWidth m)) in
      let headerTextHeight := orZero (headerHeight m) in
      let idHeight := orZero (textHeight m) in
      let th := headerTextHeight + idHeight in
      let r := tooltipRef c1 in
      match tooltipX p c1 (time datum) tooltipWidth, tooltipY p c1 seriesName th with
      | Some tx, Some ty =>
          Some (set_tooltipEls
                  (tooltipEls c1 ++
                   [ TooltipRect tx ty
                       (tooltipWidth + paddingLeft r + paddingRight r)
                       (th + paddingTop r + paddingBottom r);
                     TooltipHeader seriesName (tx + paddingLeft r)
                       (ty - idHeight + th + paddingTop r);
                     TooltipText datum (tx + paddingLeft r)
                       (ty + th + paddingTop r) ]) c1)
      | _, _ => None
      end
    else Some c1.

(** [handleHideTooltip(datum, seriesName, spike)]. *)
Definition handleHideTooltip (p : Props) (c : Chart) (gi li : nat) : Chart :=
  let c1 := restyle_at gi li (spikes_color (spikesStyle p))
              (spikes_lineWidth (spikesStyle p)) c in
  if tooltip_visible (tooltipRef c1) then set_tooltipEls [] c1 else c1.

(** The browser dispatching [mouseover] / [mouseleave] on the line at
    ([gi], [li]): the listeners attached to that element run, with the
    datum bound to it.  No line there, no event. *)
Definition mouseover (c : Chart) (gi li : nat) (m : TextMetrics) : option Chart :=
  match line_at c gi li with
  | None => None
  | Some l =>
      match handlers l with
      | Some h => handleShowTooltip (h_props h) c (bound l) (h_series h) gi li m
      | None => Some c
      end
  end.

Definition mouseleave (c : Chart) (gi li : nat) : option Chart :=
  match line_at c gi li with
  | None => None
  | Some l =>
      match handlers l with
      | Some h => Some (handleHideTooltip (h_props h) c gi li)
      | None => Some c
      end
  end.

(** *** Tracker *)

(** [handleShowTracker(path)] with the pointer at ([x], [y]). *)
Definition handleShowTracker (p : Props) (c : Chart) (x y : Q) : Chart :=
  match container c, trackerRef c with
  | true, Some path =>
      set_tracker
        (Some (mkTrackerLine x x (trk_y1 path) (trk_y2 path)
                 (if mouseInPlotArea p x y then 1 else 0)))
        (onMousemove c) c
  | _, _ => c
  end.

(** *** Magnifier *)

(** Modelled from the spec: the type [LensTransformation] of
    [./barMagnifier], which is not among the sources.  Spec section 3:
    "{ xPrime: number, magnification: number }". *)
Record LensTransformation := mkLens { xPrime : Q; magnification : Q }.

Definition has_spikes (gs : list SeriesGroup) : bool :=
  existsb (fun g => existsb spikes_class (g_lines g)) gs.

(** [selectAll('.spikes-lines')] followed by attribute updates: [f] is
    applied to every line of that class. *)
Definition map_spikes (f : SpikeLine -> SpikeLine) (gs : list SeriesGroup)
    : list SeriesGroup :=
  map (fun g => set_lines
                  (map (fun l => if spikes_class l then f l else l) (g_lines g)) g)
      gs.

Definition reposition (x w : Q) (l : SpikeLine) : SpikeLine :=
  mkSpikeLine (bound l) (spikes_class l) x x (y1 l) (y2 l) (stroke l) w (handlers l).

Section Lens.

(** [BarMagnifier(tau, power, center).magnify(x)] of [./barMagnifier],
    which is not among the sources: the lens is a parameter here. *)
Variable BarMagnifier : Q -> Q -> Q -> Q -> LensTransformation.

(** [inMagnifier(datum, x, xInterval)] and [xFrom(datum)], given the
    scale of the x axis. *)
Definition inMagnifier (p : Props) (s : d3.ScaleLinear) (datum : Datum)
    (x xInterval : Q) : bool :=
  let datumX := d3.apply s (time datum) + left (margin p) in
  Qlt_bool (x - xInterval) datumX && Qlt_bool datumX (x + xInterval).

Definition xFrom (s : d3.ScaleLinear) (datum : Datum) : Q :=
  d3.apply s (time datum).

(** The scale of the x axis is read ([axesRef.current!]) once per spike
    line: with no axes and no such line nothing fails. *)
Definition with_xScale (c : Chart) (k : d3.ScaleLinear -> Chart) (otherwise : Chart)
    : option Chart :=
  match axesRef c with
  | Some a => Some (k (xScale a))
  | None => if has_spikes (groups c) then None else Some otherwise
  end.

(** [handleShowMagnify(path)] with the pointer at ([x], [y]). *)
Definition handleShowMagnify (p : Props) (c : Chart) (x y : Q) : option Chart :=
  match container c, magnifierRef c with
  | true, Some path =>
      let isMouseInPlot := mouseInPlotArea p x y in
      let deltaX := magnifier_width (magnifier p) / 2 in
      let path1 := mkMagnifierRect (x - deltaX) (2 * deltaX) (mag_y path)
                     (mag_height path) (if isMouseInPlot then 1 else 0) in
      let c1 := set_magnifier (Some path1) (onMousemove c) c in
      if isMouseInPlot && Qle_bool 1 (Math_abs (x - mouseCoordsRef c)) then
        with_xScale c1
          (fun s =>
             let lens d := BarMagnifier deltaX (3 * zoomFactorRef c)
                             (x - left (margin p)) (xFrom s d) in
             set_mouseCoords x
               (set_groups
                  (map_spikes
                     (fun l =>
                        if inMagnifier p s (bound l) x (4 * deltaX) then
                          reposition (xPrime (lens (bound l)))
                            (spikes_lineWidth (spikesStyle p)
                             * Math_min 2 (Math_max (magnification (lens (bound l))) 1))
                            l
                        else l)
                     (groups c1)) c1))
          (set_mouseCoords x c1)
      else if negb isMouseInPlot then
        let path2 := mkMagnifierRect (left (margin p)) 0 (mag_y path1)
                       (mag_height path1) (mag_opacity path1) in
        with_xScale c1
          (fun s =>
             set_mouseCoords 0
               (set_magnifier (Some path2) (onMousemove c)
                  (set_groups
                     (map_spikes
                        (fun l => reposition (xFrom s (bound l))
                                    (spikes_lineWidth (spikesStyle p)) l)
                        (groups c1)) c1)))
          (set_mouseCoords 0 (set_magnifier (Some path2) (onMousemove c) c1))
      else Some c1
  | _, _ => Some c
  end.

(** The browser dispatching [mousemove] on the svg. *)
Definition mousemove (c : Chart) (x y : Q) : option Chart :=
  match onMousemove c with
  | Some (ShowMagnify p) => handleShowMagnify p c x y
  | Some (ShowTracker p) => Some (handleShowTracker p c x y)
  | None => Some c
  end.

End Lens.

(** *** updatePlot *)

(** "In view": [datum.time >= start && datum.time <= end]. *)
Definition inView (r : TimeRangeType) (d : Datum) : bool :=
  Qle_bool (start r) (time d) && Qle_bool (time d) (end_ r).

(** The filter on the enter and update selections: [datum.time >= start]. *)
Definition fromStart (r : TimeRangeType) (d : Datum) : bool :=
  Qle_bool (start r) (time d).

(** A [<line>] as [append('line')] creates it, bound to [d]; attributes
    that are not set have their SVG defaults. *)
Definition appended (d : Datum) : SpikeLine :=
  mkSpikeLine d false 0 0 0 0 "" 1 None.

(** The top of the band of a series: [(yScale(series.name) || 0)]. *)
Definition seriesY (ys : d3.ScaleBand) (seriesName : string) : Q :=
  orZero (d3.band ys seriesName).

Section Reconcile.

Variable p : Props.
Variable r : TimeRangeType.        (* timeRangeRef.current *)
Variable xs : d3.ScaleLinear.      (* xScale *)
Variable lineHeight : Q.

(** The enter selection of one series whose band starts at [y]. *)
Definition enterLine (seriesName : string) (y : Q) (d : Datum) : SpikeLine :=
  if fromStart r d then
    mkSpikeLine d true (d3.apply xs (time d)) (d3.apply xs (time d))
      (y + spikes_margin (spikesStyle p))
      (y + lineHeight - spikes_margin (spikesStyle p))
      (spikes_color (spikesStyle p)) (spikes_lineWidth (spikesStyle p))
      (Some (mkHandlers p seriesName))
  else appended d.

(** The update selection: the element is kept and bound to [d]. *)
Definition updateLine (y : Q) (l : SpikeLine) (d : Datum) : SpikeLine :=
  if fromStart r d then
    mkSpikeLine d (spikes_class l) (d3.apply xs (time d)) (d3.apply xs (time d))
      (y + spikes_margin (spikesStyle p))
      (y + lineHeight - spikes_margin (spikesStyle p))
      (stroke l) (stroke_width l) (handlers l)
  else
    mkSpikeLine d (spikes_class l) (x1 l) (x2 l) (y1 l) (y2 l)
      (stroke l) (stroke_width l) (handlers l).

(** [selectAll('line').data(ds)] with no key: elements and data are
    matched by index.  Matched elements are updated, data without an
    element enter, elements without a datum exit and are removed. *)
Fixpoint join (seriesName : string) (y : Q) (old : list SpikeLine) (ds : list Datum)
    : list SpikeLine :=
  match ds with
  | [] => []
  | d :: ds' =>
      match old with
      | [] => enterLine seriesName y d :: join seriesName y [] ds'
      | l :: old' => updateLine y l d :: join seriesName y old' ds'
      end
  end.

(** [svg.select('#name')] for a name that is read as an id selector (see
    [seriesSelector]): the first group with that id, if any, is the one
    whose lines are reconciled. *)
Fixpoint in_group (id : string) (f : list SpikeLine -> list SpikeLine)
    (gs : list SeriesGroup) : list SeriesGroup :=
  match gs with
  | [] => []
  | g :: rest =>
      if String.eqb (g_id g) id then set_lines (f (g_lines g)) g :: rest
      else g :: in_group id f rest
  end.

(** The body of [seriesList.forEach]. *)
Definition reconcile (ys : d3.ScaleBand) (gs : list SeriesGroup) (series : Series)
    : list SeriesGroup :=
  let y := seriesY ys (name series) in
  in_group (name series)
    (fun old => join (name series) y old (filter (inView r) (data series)))
    gs.

End Reconcile.

(** The lines rendered for a series: the data bound to the lines of the
    first group whose id is the name of the series, which is the group
    [svg.select('#name')] finds when the name is read as an id selector. *)
Fixpoint find_group (id : string) (gs : list SeriesGroup) : option SeriesGroup :=
  match gs with
  | [] => None
  | g :: rest => if String.eqb (g_id g) id then Some g else find_group id rest
  end.

Definition lines_of (seriesName : string) (gs : list SeriesGroup) : list SpikeLine :=
  match find_group seriesName gs with
  | Some g => g_lines g
  | None => []
  end.

Definition rendered (c : Chart) (seriesName : string) : list Datum :=
  map bound (lines_of seriesName (groups c)).

(** The magnifier is set up once, and its ref dropped when the style turns
    it off. *)
Definition setupMagnifier (p : Props) (c : Chart) : Chart :=
  match magnifier_visible (magnifier p), magnifierRef c with
  | true, None =>
      set_magnifier
        (Some (mkMagnifierRect 0 0 (top (margin p))
                 (dim_height (plotDimensions p) - top (margin p)) 1))
        (Some (ShowMagnify p)) c
  | false, Some _ => set_magnifier None (onMousemove c) c
  | _, _ => c
  end.

Definition setupTracker (p : Props) (c : Chart) : Chart :=
  match tracker_visible (tracker p), trackerRef c with
  | true, None =>
      set_tracker
        (Some (mkTrackerLine 0 0 (top (margin p)) (dim_height (plotDimensions p)) 0))
        (Some (ShowTracker p)) c
  | false, Some _ => set_tracker None (onMousemove c) c
  | _, _ => c
  end.

(** The main [<g>] is created by the first pass; every later pass joins
    the series list with the groups inside it, by index, and appends a
    group for each series beyond the groups that exist. *)
Definition setupMainG (p : Props) (c : Chart) : Chart :=
  if negb (mainGRef c) then set_mainG c
  else
    set_groups
      (groups c ++
       map (fun s => mkSeriesGroup (name s) [])
           (skipn (List.length (groups c)) (seriesList p)))
      c.

Definition gridLineY (p : Props) (ys : d3.ScaleBand) (lineHeight : Q) (d : string) : Q :=
  orZero (d3.band ys d) + top (margin p) + lineHeight / 2.

(** Axes, axis label and grid lines are created by the first pass; later
    passes only replace the scales. *)
Definition setupAxes (p : Props) (xs : d3.ScaleLinear) (ys : d3.ScaleBand)
    (lineHeight : Q) (c : Chart) : Chart :=
  match axesRef c with
  | None =>
      set_axes (mkAxes xs ys)
        (if plotGridLines_visible p then
           gridLines c ++
           map (fun d => mkGridLine (left (margin p))
                           (left (margin p) + dim_width (plotDimensions p))
                           (gridLineY p ys lineHeight d)
                           (gridLineY p ys lineHeight d))
               (map name (seriesList p))
         else gridLines c)
        c
  | Some _ => set_axes (mkAxes xs ys) (gridLines c) c
  end.

(** [updatePlot(timeRange)], with every series name taken for the id it
    selects; [updatePlot_run] below is the pass with the names that are no
    id selectors and the empty series list told apart. *)
Definition updatePlot (p : Props) (c : Chart) (timeRange : TimeRangeType) : Chart :=
  let c := set_timeRange timeRange (set_tooltipRef (tooltip p) c) in
  if container c then
    let c := setupMagnifier p c in
    let c := setupTracker p c in
    let c := setupMainG p c in
    let c := set_dragZoom p c in
    let t := timeRangeRef c in
    let xs := d3.mkScaleLinear (start t) (end_ t) 0 (dim_width (plotDimensions p)) in
    let lineHeight := spikeLineHeight p in
    let ys := d3.scaleBand (map name (seriesList p)) 0
                (lineHeight * length_num (seriesList p) - top (margin p)) in
    let c := setupAxes p xs ys lineHeight c in
    set_groups (fold_left (reconcile p t xs lineHeight ys) (seriesList p) (groups c)) c
  else c.

(** *** Pan and zoom *)

(** [onZoom(transform, x)] with [k = transform.k]. *)
Definition onZoom (p : Props) (c : Chart) (k x : Q) : option Chart :=
  match axesRef c with
  | None => None
  | Some a =>
      let t := d3.invert (xScale a) x in
      let c := set_timeRange (scale k t (timeRangeRef c)) c in
      let c := set_zoomFactor k c in
      Some (updatePlot p c (timeRangeRef c))
  end.

(** The time delta [onPan] derives from a pixel delta. *)
Definition panDelta (s : d3.ScaleLinear) (currentTime deltaX : Q) : Q :=
  d3.invert s (d3.apply s currentTime + deltaX) - currentTime.

(** [onPan(deltaX)]. *)
Definition onPan (p : Props) (c : Chart) (deltaX : Q) : option Chart :=
  match axesRef c with
  | None => None
  | Some a =>
      let currentTime := start (timeRangeRef c) in
      let deltaTime := panDelta (xScale a) currentTime deltaX in
      let c := set_timeRange (translate (- deltaTime) (timeRangeRef c)) c in
      Some (updatePlot p c (timeRangeRef c))
  end.

(** What d3's gesture recognisers deliver to the listeners [updatePlot]
    registers: a drag by [dx] pixels, or a zoom towards scale factor [k]
    with the pointer at [offsetX]. *)
Inductive Gesture :=
| Drag (dx : Q)
| Zoom (k offsetX : Q).

(** [d3.zoom().scaleExtent([0, 10])]: the factor of the transform the
    zoom listener receives. *)
Definition scaleExtent (k : Q) : Q := Math_max 0 (Math_min 10 k).

Definition gesture (c : Chart) (g : Gesture) : option Chart :=
  match dragZoom c with
  | None => Some c
  | Some p =>
      match g with
      | Drag dx => onPan p c dx
      | Zoom k offsetX => onZoom p c (scaleExtent k) (offsetX - left (margin p))
      end
  end.

Fixpoint gestures (c : Chart) (gs : list Gesture) : option Chart :=
  match gs with
  | [] => Some c
  | g :: rest =>
      match gesture c g with
      | Some c' => gestures c' rest
      | None => None
      end
  end.

(** *** Observations and the scenario of spec section 8.6 *)

(** The band index the current y scale gives a series name. *)
Definition bandOf (c : Chart) (seriesName : string) : option nat :=
  match axesRef c with
  | Some a => d3.band_index (yScale a) seriesName
  | None => None
  end.

(** The names of a list that come before the first occurrence of [n],
    and the number of distinct names among them. *)
Fixpoint before (n : string) (l : list string) : list string :=
  match l with
  | [] => []
  | m :: rest => if String.eqb n m then [] else m :: before n rest
  end.

Definition distinct_before (n : string) (l : list string) : nat :=
  List.length (d3.dedup [] (before n l)).

(** The vertical position the current y scale gives a series name. *)
Definition bandPosition (c : Chart) (seriesName : string) : option Q :=
  match axesRef c with
  | Some a => d3.band (yScale a) seriesName
  | None => None
  end.

(** The pointer lies on one of the four edges of the plot area. *)
Definition on_boundary (p : Props) (x y : Q) : Prop :=
  x == left (margin p) \/ x == width p - right (margin p) \/
  y == top (margin p) \/ y == height p - bottom (margin p).

Inductive Tag := rect | text.

Definition tag_of (e : TooltipElement) : Tag :=
  match e with
  | TooltipRect _ _ _ _ => rect
  | TooltipHeader _ _ _ => text
  | TooltipText _ _ _ => text
  end.

(** Every spike line in the document has its mouse listeners. *)
Definition handlers_attached (c : Chart) : Prop :=
  Forall (fun g => Forall (fun l => handlers l <> None) (g_lines g)) (groups c).

Definition n0 : Series :=
  mkSeries "n0" [mkDatum 10 1; mkDatum 500 1; mkDatum 1200 1].

Definition scenarioProps (tt : bool) (l : list Series) : Props :=
  {| width := 900; height := 400; margin := defaultMargin;
     spikesStyle := defaultSpikesStyle; plotGridLines_visible := true;
     tooltip := mkTooltipStyle tt 10 10 5 10;
     magnifier := mkLineMagnifierStyle true 75;
     tracker := mkTrackerStyle true;
     minTime := 0; maxTime := 1000; seriesList := l |}.

(** The chart after the effect of the mount render, and after the effect
    of the next render with the same props. *)
Definition firstPass : Chart :=
  updatePlot (scenarioProps false [n0]) (mounted (scenarioProps false [n0]))
    (TimeRange 0 1000).

Definition secondPass : Chart :=
  updatePlot (scenarioProps false [n0]) firstPass (TimeRange 0 1000).

(** Two series, in the two orders. *)
Definition seriesA : Series := mkSeries "a" [mkDatum 10 1].
Definition seriesB : Series := mkSeries "b" [mkDatum 20 1].

Definition passAB : Chart :=
  updatePlot (scenarioProps false [seriesA; seriesB])
    (mounted (scenarioProps false [seriesA; seriesB])) (TimeRange 0 1000).

Definition passBA : Chart :=
  updatePlot (scenarioProps false [seriesB; seriesA]) passAB (TimeRange 0 1000).

(** The scales the second pass leaves in [axesRef]. *)
Definition secondPassAxes : Axes :=
  mkAxes (d3.mkScaleLinear 0 1000 0 830) (d3.mkScaleBand ["n0"%string] 0 310).

(** Sample measurements of the tooltip texts, and a lens that leaves every
    point where it is. *)
Definition sampleMetrics : TextMetrics :=
  mkTextMetrics (Some 40) (Some 12) (Some 80) (Some 14).

Definition flatLens (tau power center x : Q) : LensTransformation := mkLens x 1.

(** On a mounted chart the container is attached, and as long as there
    is no axis there is no series group and no drag or zoom listener. *)
Definition wired (c : Chart) : Prop :=
  container c = true /\ (axesRef c = None -> groups c = [] /\ dragZoom c = None).

(** The scales a pass over [p] and [t] builds. *)
Definition passXScale (p : Props) (t : TimeRangeType) : d3.ScaleLinear :=
  d3.mkScaleLinear (start t) (end_ t) 0 (dim_width (plotDimensions p)).

Definition passYScale (p : Props) : d3.ScaleBand :=
  d3.scaleBand (map name (seriesList p)) 0
    (spikeLineHeight p * length_num (seriesList p) - top (margin p)).



(** *** The selector of a series group

    [svg.select('#' + series.name)] hands the string [#name] to the
    selector engine of the browser.  The engine reads it as an id selector
    when the name is an identifier, throws a [DOMException] when the
    string is no selector at all, and reads a name with selector syntax in
    it (a comma, a dot, a space, ...) as a selector of something else.

    Three kinds of names are told apart here:
    - an identifier of ASCII letters, digits, [_] and [-] that starts with
      a letter or [_], and is neither the id of the gradient of the
      magnifier nor of the shape of the ids the tooltip gives its elements
      ([r], [t] or [tn] followed by a number): [#name] selects the first
      element of the svg whose id is the name (ids are matched as they are
      written, the document being in standards mode), and only series
      groups have such ids;
    - the empty name and a name that starts with a digit: [#] and [#1...]
      are no selectors, and [select] throws;
    - any other name, for which the pass is not embedded. *)
Definition is_digit (a : ascii) : bool :=
  let n := nat_of_ascii a in
  ((48 <=? n) && (n <=? 57))%nat.

Definition is_letter (a : ascii) : bool :=
  let n := nat_of_ascii a in
  (((65 <=? n) && (n <=? 90)) || ((97 <=? n) && (n <=? 122)))%nat.

Definition name_start (a : ascii) : bool := is_letter a || Ascii.eqb a "_".

Definition name_char (a : ascii) : bool :=
  name_start a || is_digit a || Ascii.eqb a "-".

Fixpoint all_chars (f : ascii -> bool) (s : string) : bool :=
  match s with
  | EmptyString => true
  | String a rest => f a && all_chars f rest
  end.

Definition identifier (s : string) : bool :=
  match s with
  | EmptyString => false
  | String a rest => name_start a && all_chars name_char rest
  end.

(** The first character of a number written by a template literal: a
    digit, the sign, [Infinity] or [NaN]. *)
Definition starts_number (s : string) : bool :=
  match s with
  | EmptyString => false
  | String a _ => is_digit a || Ascii.eqb a "-" || Ascii.eqb a "I" || Ascii.eqb a "N"
  end.

(** The shape of the ids of [handleShowTooltip]: [r], [tn] or [t], then
    the time of the datum. *)
Definition tooltip_id (s : string) : bool :=
  match s with
  | EmptyString => false
  | String a rest =>
      (Ascii.eqb a "r" && starts_number rest) ||
      (Ascii.eqb a "t" &&
       (starts_number rest ||
        match rest with
        | EmptyString => false
        | String b rest' => Ascii.eqb b "n" && starts_number rest'
        end))
  end.

Inductive Selector :=
| IdSelector      (* matches the elements whose id is the name *)
| NoSelector      (* [select] throws *)
| OtherSelector.  (* not embedded *)

Definition seriesSelector (seriesName : string) : Selector :=
  match seriesName with
  | EmptyString => NoSelector
  | String a _ =>
      if is_digit a then NoSelector
      else if identifier seriesName
              && negb (String.eqb seriesName "magnifier-gradient")
              && negb (tooltip_id seriesName)
      then IdSelector
      else OtherSelector
  end.


(** *** updatePlot and the listeners, with what can go wrong

    How a pass, or a listener, ends:
    - it completes;
    - it completes with an empty series list: [spikeLineHeight] divides by
      the length 0, so that the line height and the upper end of the range
      of the y scale are no finite numbers; in the chart given, the domain
      of the y scale is empty and its range stands for [[0, NaN]];
    - [select] throws, at the first series whose name is no selector: the
      chart is the document as the series before it have left it;
    - [axesRef.current!] is read while undefined;
    - the pass meets a selector that is not embedded. *)
Inductive Result :=
| Completed (c : Chart)
| CompletedNoSeries (c : Chart)
| Threw (c : Chart)
| AxesUndefined
| NotEmbedded.

(** The chart a pass or a listener leaves, and the one it leaves when it
    runs to its end. *)
Definition after (r : Result) : option Chart :=
  match r with
  | Completed c | CompletedNoSeries c | Threw c => Some c
  | AxesUndefined | NotEmbedded => None
  end.



(** How [seriesList.forEach] ends. *)
Inductive Sweep :=
| Swept (gs : list SeriesGroup)
| SweepThrew (gs : list SeriesGroup)
| SweepNotEmbedded.

Fixpoint forEachSeries (p : Props) (t : TimeRangeType) (l : list Series)
    (gs : list SeriesGroup) : Sweep :=
  match l with
  | [] => Swept gs
  | series :: rest =>
      match seriesSelector (name series) with
      | IdSelector =>
          forEachSeries p t rest
            (reconcile p t (passXScale p t) (spikeLineHeight p) (passYScale p) gs series)
      | NoSelector => SweepThrew gs
      | OtherSelector => SweepNotEmbedded
      end
  end.

(** The part of [updatePlot] before [seriesList.forEach], for a container
    that is attached. *)
Definition beforeSeries (p : Props) (c : Chart) (timeRange : TimeRangeType) : Chart :=
  let c := set_timeRange timeRange (set_tooltipRef (tooltip p) c) in
  let c := setupMagnifier p c in
  let c := setupTracker p c in
  let c := setupMainG p c in
  let c := set_dragZoom p c in
  setupAxes p (passXScale p (timeRangeRef c)) (passYScale p) (spikeLineHeight p) c.

(** [updatePlot(timeRange)], with the selector of each series read as the
    selector engine reads it.  Where every name is an identifier it agrees
    with [updatePlot] above, which takes every name for an id. *)
Definition updatePlot_run (p : Props) (c : Chart) (timeRange : TimeRangeType) : Result :=
  if container c then
    let c := beforeSeries p c timeRange in
    match forEachSeries p (timeRangeRef c) (seriesList p) (groups c) with
    | Swept gs =>
        match seriesList p with
        | [] => CompletedNoSeries (set_groups gs c)
        | _ :: _ => Completed (set_groups gs c)
        end
    | SweepThrew gs => Threw (set_groups gs c)
    | SweepNotEmbedded => NotEmbedded
    end
  else Completed (set_timeRange timeRange (set_tooltipRef (tooltip p) c)).

(** [onZoom], [onPan] and the gesture listeners, over [updatePlot_run]. *)
Definition onZoom_run (p : Props) (c : Chart) (k x : Q) : Result :=
  match axesRef c with
  | None => AxesUndefined
  | Some a =>
      let t := d3.invert (xScale a) x in
      let c := set_timeRange (scale k t (timeRangeRef c)) c in
      let c := set_zoomFactor k c in
      updatePlot_run p c (timeRangeRef c)
  end.

Definition onPan_run (p : Props) (c : Chart) (deltaX : Q) : Result :=
  match axesRef c with
  | None => AxesUndefined
  | Some a =>
      let currentTime := start (timeRangeRef c) in
      let deltaTime := panDelta (xScale a) currentTime deltaX in
      let c := set_timeRange (translate (- deltaTime) (timeRangeRef c)) c in
      updatePlot_run p c (timeRangeRef c)
  end.

Definition gesture_run (c : Chart) (g : Gesture) : Result :=
  match dragZoom c with
  | None => Completed c
  | Some p =>
      match g with
      | Drag dx => onPan_run p c dx
      | Zoom k offsetX => onZoom_run p c (scaleExtent k) (offsetX - left (margin p))
      end
  end.

(** *** Events

    What can happen to a mounted chart: a render of the component, whose
    effect runs a pass of [updatePlot], and the events the browser
    dispatches to the listeners the passes have registered.  A mouse event
    on a line that is not there is no event. *)
Inductive Event :=
| Render (p : Props) (t : TimeRangeType)
| Gestured (g : Gesture)
| Mouseover (gi li : nat) (m : TextMetrics)
| Mouseleave (gi li : nat)
| Mousemove (x y : Q).

Definition fire (BarMagnifier : Q -> Q -> Q -> Q -> LensTransformation)
    (c : Chart) (e : Event) : Result :=
  match e with
  | Render p t => updatePlot_run p c t
  | Gestured g => gesture_run c g
  | Mouseover gi li m =>
      match line_at c gi li with
      | None => Completed c
      | Some _ =>
          match mouseover c gi li m with
          | Some c' => Completed c'
          | None => AxesUndefined
          end
      end
  | Mouseleave gi li =>
      match mouseleave c gi li with
      | Some c' => Completed c'
      | None => Completed c
      end
  | Mousemove x y =>
      match mousemove BarMagnifier c x y with
      | Some c' => Completed c'
      | None => AxesUndefined
      end
  end.

(** The charts a mounted component can be in: an event fired there leaves
    the next one.  A pass that throws leaves the document as it was at the
    throw; the charts that follow it are counted in, whether or not the
    component survives the throw. *)
Inductive reachable (BarMagnifier : Q -> Q -> Q -> Q -> LensTransformation)
    : Chart -> Prop :=
| reach_mounted (p : Props) : reachable BarMagnifier (mounted p)
| reach_fire (c c' : Chart) (e : Event) :
    reachable BarMagnifier c -> after (fire BarMagnifier c e) = Some c' ->
    reachable BarMagnifier c'.



(** The width [handleShowTooltip] takes for the tooltip: that of the wider
    of its two texts. *)
Definition tooltipWidth (m : TextMetrics) : Q :=
  Math_max (orZero (headerWidth m)) (orZero (textWidth m)).

(** Further charts of the scenario: after a render that turns the tooltip
    on, and after a mouse move with the lens at pixel 100. *)
Definition visiblePass : Chart :=
  updatePlot (scenarioProps true [n0]) secondPass (TimeRange 0 1000).

Definition afterLensMove : Chart :=
  match handleShowMagnify flatLens (scenarioProps false [n0]) secondPass 100 100 with
  | Some c => c
  | None => secondPass
  end.

(** Props with the tracker as the only overlay, for a given width. *)
Definition trackerProps (w : Q) : Props :=
  {| width := w; height := 400; margin := defaultMargin;
     spikesStyle := defaultSpikesStyle; plotGridLines_visible := true;
     tooltip := defaultTooltipStyle; magnifier := defaultLineMagnifierStyle;
     tracker := mkTrackerStyle true;
     minTime := 0; maxTime := 1000; seriesList := [n0] |}.


Definition lineOf (c : Chart) (gi li : nat) : SpikeLine :=
  match line_at c gi li with
  | Some l => l
  | None => appended (mkDatum 0 0)
  end.

Definition lensOf (c : Chart) : MagnifierRect :=
  match magnifierRef c with
  | Some m => m
  | None => mkMagnifierRect 0 0 0 0 0
  end.

(** * Properties *)

(** ** Numbers *)

Lemma Qlt_bool_iff (x y : Q) : Qlt_bool x y = true <-> x < y.
Proof.
  unfold Qlt_bool. rewrite negb_true_iff. split; intro H.
  - apply Qnot_le_lt. intro Hle. apply Qle_bool_iff in Hle. congruence.
  - destruct (Qle_bool y x) eqn:E; [| reflexivity].
    apply Qle_bool_iff in E. exfalso. exact (Qlt_not_le _ _ H E).
Qed.


Lemma scaleExtent_bounds (k : Q) : 0 <= scaleExtent k /\ scaleExtent k <= 10.
Proof.
  unfold scaleExtent, Math_max, Math_min.
  destruct (Qle_bool 10 k) eqn:E1.
  - cbn. split; [discriminate | apply Qle_refl].
  - destruct (Qle_bool 0 k) eqn:E2.
    + apply Qle_bool_iff in E2. split; [exact E2 |].
      apply Qlt_le_weak, Qnot_le_lt. intro H. apply Qle_bool_iff in H. congruence.
    + split; [apply Qle_refl | discriminate].
Qed.

(** ** The time range *)

Section TimeRangeFacts.

Variable r : TimeRangeType.

Lemma translate_valid (dt : Q) : valid r -> valid (translate dt r).
Proof. unfold valid, translate. simpl. intro H. lra. Qed.

Lemma translate_span (dt : Q) : span (translate dt r) == span r.
Proof. unfold span, translate. simpl. lra. Qed.

Lemma scale_zero_collapses (pivot : Q) : scale 0 pivot r = TimeRange pivot pivot.
Proof. reflexivity. Qed.

Lemma scale_span (k pivot : Q) : ~ k == 0 -> span (scale k pivot r) == span r / k.
Proof.
  intro Hk. unfold span, scale.
  destruct (Qeq_bool k 0) eqn:E.
  - apply Qeq_bool_iff in E. contradiction.
  - simpl. field. exact Hk.
Qed.

Lemma scale_valid (k pivot : Q) : 0 <= k -> valid r -> valid (scale k pivot r).
Proof.
  intros Hk Hr. unfold valid in *.
  destruct (Qeq_bool k 0) eqn:E.
  - unfold scale. rewrite E. simpl. apply Qle_refl.
  - assert (Hne : ~ k == 0) by (intro H; apply Qeq_bool_iff in H; congruence).
    assert (Hs := scale_span k pivot Hne). unfold span in Hs.
    assert (Hpos : 0 <= (end_ r - start r) / k).
    { apply Qle_shift_div_l; [| lra].
      destruct (Qlt_le_dec 0 k) as [Hlt | Hle]; [exact Hlt |].
      exfalso. apply Hne. lra. }
    lra.
Qed.

End TimeRangeFacts.

(** ** What a pass of updatePlot leaves in the refs *)

(** Reduction of a field of the chart under the setters. *)
Ltac fields :=
  cbn [container mainGRef groups gridLines axesRef magnifierRef trackerRef
       onMousemove dragZoom tooltipEls tooltipRef timeRangeRef mouseCoordsRef
       zoomFactorRef set_axes set_groups set_mainG set_dragZoom set_tracker
       set_magnifier set_timeRange set_tooltipRef set_tooltipEls
       set_mouseCoords set_zoomFactor].

Ltac by_cases_of step :=
  intros; unfold step;
  repeat match goal with
         | |- context [match ?x with _ => _ end] => destruct x
         end;
  reflexivity.

Section Steps.

Variables (p : Props) (c : Chart).

Lemma setupMagnifier_container : container (setupMagnifier p c) = container c.
Proof. by_cases_of setupMagnifier. Qed.
Lemma setupMagnifier_mainGRef : mainGRef (setupMagnifier p c) = mainGRef c.
Proof. by_cases_of setupMagnifier. Qed.
Lemma setupMagnifier_groups : groups (setupMagnifier p c) = groups c.
Proof. by_cases_of setupMagnifier. Qed.
Lemma setupMagnifier_axesRef : axesRef (setupMagnifier p c) = axesRef c.
Proof. by_cases_of setupMagnifier. Qed.
Lemma setupMagnifier_tooltipEls : tooltipEls (setupMagnifier p c) = tooltipEls c.
Proof. by_cases_of setupMagnifier. Qed.
Lemma setupMagnifier_tooltipRef : tooltipRef (setupMagnifier p c) = tooltipRef c.
Proof. by_cases_of setupMagnifier. Qed.
Lemma setupMagnifier_timeRangeRef : timeRangeRef (setupMagnifier p c) = timeRangeRef c.
Proof. by_cases_of setupMagnifier. Qed.

Lemma setupTracker_container : container (setupTracker p c) = container c.
Proof. by_cases_of setupTracker. Qed.
Lemma setupTracker_mainGRef : mainGRef (setupTracker p c) = mainGRef c.
Proof. by_cases_of setupTracker. Qed.
Lemma setupTracker_groups : groups (setupTracker p c) = groups c.
Proof. by_cases_of setupTracker. Qed.
Lemma setupTracker_axesRef : axesRef (setupTracker p c) = axesRef c.
Proof. by_cases_of setupTracker. Qed.
Lemma setupTracker_tooltipEls : tooltipEls (setupTracker p c) = tooltipEls c.
Proof. by_cases_of setupTracker. Qed.
Lemma setupTracker_tooltipRef : tooltipRef (setupTracker p c) = tooltipRef c.
Proof. by_cases_of setupTracker. Qed.
Lemma setupTracker_timeRangeRef : timeRangeRef (setupTracker p c) = timeRangeRef c.
Proof. by_cases_of setupTracker. Qed.

Lemma setupMainG_container : container (setupMainG p c) = container c.
Proof. by_cases_of setupMainG. Qed.
Lemma setupMainG_mainGRef : mainGRef (setupMainG p c) = true.
Proof. unfold setupMainG. destruct (mainGRef c) eqn:E; simpl; auto. Qed.
Lemma setupMainG_axesRef : axesRef (setupMainG p c) = axesRef c.
Proof. by_cases_of setupMainG. Qed.
Lemma setupMainG_tooltipEls : tooltipEls (setupMainG p c) = tooltipEls c.
Proof. by_cases_of setupMainG. Qed.
Lemma setupMainG_tooltipRef : tooltipRef (setupMainG p c) = tooltipRef c.
Proof. by_cases_of setupMainG. Qed.
Lemma setupMainG_timeRangeRef : timeRangeRef (setupMainG p c) = timeRangeRef c.
Proof. by_cases_of setupMainG. Qed.
Lemma setupMainG_groups :
  groups (setupMainG p c) =
  if mainGRef c
  then groups c ++ map (fun s => mkSeriesGroup (name s) [])
                       (skipn (List.length (groups c)) (seriesList p))
  else groups c.
Proof. unfold setupMainG. destruct (mainGRef c); reflexivity. Qed.

Variables (xs : d3.ScaleLinear) (ys : d3.ScaleBand) (lineHeight : Q).

Lemma setupAxes_container : container (setupAxes p xs ys lineHeight c) = container c.
Proof. by_cases_of setupAxes. Qed.
Lemma setupAxes_mainGRef : mainGRef (setupAxes p xs ys lineHeight c) = mainGRef c.
Proof. by_cases_of setupAxes. Qed.
Lemma setupAxes_groups : groups (setupAxes p xs ys lineHeight c) = groups c.
Proof. by_cases_of setupAxes. Qed.
Lemma setupAxes_axesRef : axesRef (setupAxes p xs ys lineHeight c) = Some (mkAxes xs ys).
Proof. by_cases_of setupAxes. Qed.
Lemma setupAxes_dragZoom : dragZoom (setupAxes p xs ys lineHeight c) = dragZoom c.
Proof. by_cases_of setupAxes. Qed.
Lemma setupAxes_tooltipEls : tooltipEls (setupAxes p xs ys lineHeight c) = tooltipEls c.
Proof. by_cases_of setupAxes. Qed.
Lemma setupAxes_tooltipRef : tooltipRef (setupAxes p xs ys lineHeight c) = tooltipRef c.
Proof. by_cases_of setupAxes. Qed.
Lemma setupAxes_timeRangeRef : timeRangeRef (setupAxes p xs ys lineHeight c) = timeRangeRef c.
Proof. by_cases_of setupAxes. Qed.

End Steps.

Create Rewrite HintDb pass.

#[local] Hint Rewrite
  setupMagnifier_container setupMagnifier_mainGRef setupMagnifier_groups
  setupMagnifier_axesRef setupMagnifier_tooltipEls setupMagnifier_tooltipRef
  setupMagnifier_timeRangeRef
  setupTracker_container setupTracker_mainGRef setupTracker_groups
  setupTracker_axesRef setupTracker_tooltipEls setupTracker_tooltipRef
  setupTracker_timeRangeRef
  setupMainG_container setupMainG_mainGRef setupMainG_axesRef
  setupMainG_tooltipEls setupMainG_tooltipRef setupMainG_timeRangeRef
  setupAxes_container setupAxes_mainGRef setupAxes_groups setupAxes_axesRef
  setupAxes_dragZoom setupAxes_tooltipEls setupAxes_tooltipRef
  setupAxes_timeRangeRef : pass.

(** A field of the chart after a pass, read off step by step. *)
Ltac pass_field :=
  unfold updatePlot; cbv zeta; fields;
  match goal with
  | |- context [if container ?c then _ else _] => destruct (container c) eqn:?
  end;
  fields; repeat (autorewrite with pass; fields);
  try reflexivity; try congruence.

Lemma updatePlot_timeRangeRef (p : Props) (c : Chart) (t : TimeRangeType) :
  timeRangeRef (updatePlot p c t) = t.
Proof. pass_field. Qed.

Lemma updatePlot_tooltipRef (p : Props) (c : Chart) (t : TimeRangeType) :
  tooltipRef (updatePlot p c t) = tooltip p.
Proof. pass_field. Qed.

Lemma updatePlot_tooltipEls (p : Props) (c : Chart) (t : TimeRangeType) :
  tooltipEls (updatePlot p c t) = tooltipEls c.
Proof. pass_field. Qed.

Lemma updatePlot_container (p : Props) (c : Chart) (t : TimeRangeType) :
  container (updatePlot p c t) = container c.
Proof. pass_field. Qed.


Lemma updatePlot_axesRef (p : Props) (c : Chart) (t : TimeRangeType) :
  container c = true ->
  axesRef (updatePlot p c t) =
  Some (mkAxes
          (d3.mkScaleLinear (start t) (end_ t) 0 (dim_width (plotDimensions p)))
          (d3.scaleBand (map name (seriesList p)) 0
             (spikeLineHeight p * length_num (seriesList p) - top (margin p)))).
Proof. intro H. pass_field. Qed.

Lemma updatePlot_dragZoom (p : Props) (c : Chart) (t : TimeRangeType) :
  container c = true -> dragZoom (updatePlot p c t) = Some p.
Proof. intro H. pass_field. Qed.

(** ** Pan and zoom *)

Lemma onZoom_timeRangeRef (p : Props) (c : Chart) (k x : Q) (a : Axes) :
  axesRef c = Some a ->
  exists c', onZoom p c k x = Some c' /\
             timeRangeRef c' = scale k (d3.invert (xScale a) x) (timeRangeRef c) /\
             container c' = container c.
Proof.
  intro Ha. unfold onZoom. rewrite Ha. eexists. split; [reflexivity |].
  rewrite updatePlot_timeRangeRef, updatePlot_container. split; reflexivity.
Qed.

Lemma onPan_timeRangeRef (p : Props) (c : Chart) (deltaX : Q) (a : Axes) :
  axesRef c = Some a ->
  exists c', onPan p c deltaX = Some c' /\
             timeRangeRef c' =
               translate (- panDelta (xScale a) (start (timeRangeRef c)) deltaX)
                 (timeRangeRef c) /\
             container c' = container c.
Proof.
  intro Ha. unfold onPan. rewrite Ha. eexists. split; [reflexivity |].
  rewrite updatePlot_timeRangeRef, updatePlot_container. split; reflexivity.
Qed.

Lemma gesture_step (c : Chart) (g : Gesture) :
  container c = true -> axesRef c <> None -> valid (timeRangeRef c) ->
  exists c', gesture c g = Some c' /\ container c' = true /\
             axesRef c' <> None /\ valid (timeRangeRef c').
Proof.
  intros Hc Ha Hv. unfold gesture.
  destruct (dragZoom c) as [p |]; [| exists c; auto].
  destruct (axesRef c) as [a |] eqn:Ea; [| congruence].
  destruct g as [dx | k offsetX].
  - destruct (onPan_timeRangeRef p c dx a Ea) as (c' & Hp & Ht & Hk).
    exists c'. split; [exact Hp |]. split; [congruence |]. split.
    + unfold onPan in Hp. rewrite Ea in Hp. injection Hp as <-.
      rewrite updatePlot_axesRef; [discriminate | exact Hc].
    + rewrite Ht. now apply translate_valid.
  - destruct (onZoom_timeRangeRef p c (scaleExtent k) (offsetX - left (margin p)) a Ea)
      as (c' & Hz & Ht & Hk).
    exists c'. split; [exact Hz |]. split; [congruence |]. split.
    + unfold onZoom in Hz. rewrite Ea in Hz. injection Hz as <-.
      rewrite updatePlot_axesRef; [discriminate | exact Hc].
    + rewrite Ht. apply scale_valid; [apply scaleExtent_bounds | exact Hv].
Qed.

(** C3.  Starting from a chart whose time range satisfies [start <= end],
    every sequence of drag and zoom gestures runs to completion and leaves
    a time range that still satisfies [start <= end].  The factor a zoom
    hands to [scale] is the one the scale extent [[0, 10]] lets through;
    the pivot and the pan delta are whatever the current x scale inverts
    the pointer position to.  The statement holds for every prefix of the
    sequence, so no range with [start > end] is built on the way. *)
Theorem gestures_preserve_valid (gs : list Gesture) (c : Chart) :
  container c = true -> axesRef c <> None -> valid (timeRangeRef c) ->
  exists c', gestures c gs = Some c' /\ valid (timeRangeRef c').
Proof.
  revert c. induction gs as [| g rest IH]; intros c Hc Ha Hv.
  - exists c. split; [reflexivity | exact Hv].
  - destruct (gesture_step c g Hc Ha Hv) as (c1 & Hg & Hc1 & Ha1 & Hv1).
    destruct (IH c1 Hc1 Ha1 Hv1) as (c' & Hr & Hv').
    exists c'. split; [| exact Hv']. simpl. rewrite Hg. exact Hr.
Qed.

(** C4.  [onPan(deltaX)] takes the time delta to be the inverse of the
    current x scale at [scale(start) + deltaX], minus [start], and replaces
    the time range by [translate(-delta)] of it; the width of the window is
    the same before and after, whatever the drag. *)
Theorem onPan_translates_keeping_width (p : Props) (c : Chart) (deltaX : Q) (a : Axes) :
  axesRef c = Some a ->
  exists c',
    onPan p c deltaX = Some c' /\
    timeRangeRef c' =
      translate
        (- (d3.invert (xScale a)
              (d3.apply (xScale a) (start (timeRangeRef c)) + deltaX)
            - start (timeRangeRef c)))
        (timeRangeRef c) /\
    span (timeRangeRef c') == span (timeRangeRef c).
Proof.
  intro Ha. destruct (onPan_timeRangeRef p c deltaX a Ha) as (c' & Hp & Ht & _).
  exists c'. split; [exact Hp |]. split; [exact Ht |].
  rewrite Ht. apply translate_span.
Qed.

(** C7.  [translate(0)] gives back a range with the same bounds, and so
    does [scale(1, pivot)] for every pivot. *)
Theorem translate_zero_scale_one_identity (r : TimeRangeType) (pivot : Q) :
  same (translate 0 r) r /\ same (scale 1 pivot r) r.
Proof.
  unfold same, translate, scale. simpl. repeat split; field.
Qed.

(** ** The plot area *)

Lemma mouseInPlotArea_iff (p : Props) (x y : Q) :
  mouseInPlotArea p x y = true <->
  left (margin p) < x /\ x < width p - right (margin p) /\
  top (margin p) < y /\ y < height p - bottom (margin p).
Proof.
  unfold mouseInPlotArea. rewrite !andb_true_iff, !Qlt_bool_iff. tauto.
Qed.

Lemma mouseInPlotArea_boundary (p : Props) (x y : Q) :
  on_boundary p x y -> mouseInPlotArea p x y = false.
Proof.
  intro H. destruct (mouseInPlotArea p x y) eqn:E; [| reflexivity].
  apply mouseInPlotArea_iff in E. destruct E as (E1 & E2 & E3 & E4).
  exfalso. destruct H as [H | [H | [H | H]]]; rewrite H in *;
    eapply Qlt_irrefl; eassumption.
Qed.

(** C10.  The plot-area test is strict.  With the pointer on an edge of
    the plot area [mouseInPlotArea] is false, the tracker line gets opacity
    0 and so does the magnifier lens; the test is true exactly in the open
    rectangle inside the margins. *)
Theorem boundary_is_outside_plot_area
    (BarMagnifier : Q -> Q -> Q -> Q -> LensTransformation)
    (p : Props) (c : Chart) (x y : Q) :
  on_boundary p x y -> container c = true ->
  mouseInPlotArea p x y = false /\
  (forall t, trackerRef c = Some t ->
     option_map trk_opacity (trackerRef (handleShowTracker p c x y)) = Some 0) /\
  (forall m a, magnifierRef c = Some m -> axesRef c = Some a ->
     exists c', handleShowMagnify BarMagnifier p c x y = Some c' /\
                option_map mag_opacity (magnifierRef c') = Some 0) /\
  (forall x' y', mouseInPlotArea p x' y' = true <->
     left (margin p) < x' /\ x' < width p - right (margin p) /\
     top (margin p) < y' /\ y' < height p - bottom (margin p)).
Proof.
  intros Hb Hc. pose proof (mouseInPlotArea_boundary p x y Hb) as Hout.
  split; [exact Hout |]. split; [| split].
  - intros t Ht. unfold handleShowTracker. rewrite Hc, Ht, Hout. reflexivity.
  - intros m a Hm Ha. unfold handleShowMagnify. rewrite Hc, Hm, Hout. simpl.
    unfold with_xScale. simpl. rewrite Ha. eexists. split; reflexivity.
  - intros x' y'. apply mouseInPlotArea_iff.
Qed.

(** ** The band scale *)

Lemma index_of_None (n : string) (l : list string) :
  d3.index_of n l = None <-> ~ In n l.
Proof.
  induction l as [| m rest IH]; simpl.
  - tauto.
  - destruct (String.eqb n m) eqn:E.
    + apply String.eqb_eq in E. subst. split; [discriminate | tauto].
    + apply String.eqb_neq in E.
      destruct (d3.index_of n rest) as [i |].
      * split; [discriminate |]. intro H. exfalso. apply H. right.
        destruct (in_dec string_dec n rest) as [Hin | Hout]; [exact Hin |].
        apply IH in Hout. discriminate.
      * split; [| reflexivity]. intros _ [H1 | H1]; [congruence |].
        now apply IH.
Qed.

Lemma band_None (ys : d3.ScaleBand) (n : string) :
  d3.band ys n = None <-> ~ In n (d3.band_domain ys).
Proof.
  unfold d3.band, d3.band_index. rewrite <- index_of_None.
  destruct (d3.index_of n (d3.band_domain ys)); split; congruence.
Qed.

Lemma index_of_app (n : string) (l1 l2 : list string) :
  In n l1 -> d3.index_of n (l1 ++ l2) = d3.index_of n l1.
Proof.
  induction l1 as [| m rest IH]; simpl; [tauto |].
  intros [H | H].
  - subst. now rewrite String.eqb_refl.
  - destruct (String.eqb n m); [reflexivity |]. now rewrite IH.
Qed.

Lemma existsb_eqb_In (n : string) (seen : list string) :
  existsb (String.eqb n) seen = true <-> In n seen.
Proof.
  rewrite existsb_exists. split.
  - intros (m & Hin & E). apply String.eqb_eq in E. now subst.
  - intro H. exists n. split; [exact H | apply String.eqb_refl].
Qed.

Lemma In_dedup (n : string) (l seen : list string) :
  In n (d3.dedup seen l) <-> In n l /\ ~ In n seen.
Proof.
  revert seen. induction l as [| m rest IH]; intro seen; simpl; [tauto |].
  destruct (existsb (String.eqb m) seen) eqn:E.
  - apply existsb_eqb_In in E. rewrite IH. split.
    + tauto.
    + intros [[H | H] Hn]; [subst; contradiction | tauto].
  - assert (Hm : ~ In m seen).
    { intro H. apply existsb_eqb_In in H. congruence. }
    simpl. rewrite IH. simpl. split.
    + intros [H | (H1 & H2)]; [subst; tauto | tauto].
    + intros [[H | H] Hn]; [tauto |].
      destruct (string_dec m n) as [-> | Hne]; [tauto |]. right. tauto.
Qed.

Lemma dedup_app (l l' seen : list string) :
  exists tail, d3.dedup seen (l ++ l') = d3.dedup seen l ++ tail.
Proof.
  revert seen. induction l as [| m rest IH]; intro seen; simpl.
  - now exists (d3.dedup seen l').
  - destruct (existsb (String.eqb m) seen).
    + apply IH.
    + destruct (IH (m :: seen)) as (tail & ->). now exists tail.
Qed.

(** C9.  A series name the band scale has no position for is placed at 0:
    in the grid-line position, in the two ends of a spike, and in the y
    position of the tooltip.  Each of them is a total function of the
    lookup, so a missing position is never an error. *)
Theorem missing_band_defaults_to_zero
    (p : Props) (ys : d3.ScaleBand) (lineHeight : Q) (seriesName : string) :
  d3.band ys seriesName = None ->
  gridLineY p ys lineHeight seriesName = 0 + top (margin p) + lineHeight / 2 /\
  seriesY ys seriesName = 0 /\
  (forall r xs d, fromStart r d = true ->
     y1 (enterLine p r xs lineHeight seriesName (seriesY ys seriesName) d)
       = 0 + spikes_margin (spikesStyle p) /\
     y2 (enterLine p r xs lineHeight seriesName (seriesY ys seriesName) d)
       = 0 + lineHeight - spikes_margin (spikesStyle p)) /\
  (forall c xs h, axesRef c = Some (mkAxes xs ys) ->
     tooltipY p c seriesName h =
       Some (let y := 0 + top (margin p) - paddingBottom (tooltip p) - h
                      - paddingTop (tooltip p) in
             if Qlt_bool 0 y then y
             else y + paddingBottom (tooltip p) + h + paddingTop (tooltip p)
                  + spikeLineHeight p)).
Proof.
  intro Hnone. unfold gridLineY, seriesY. rewrite Hnone. simpl.
  split; [reflexivity |]. split; [reflexivity |]. split.
  - intros r xs d Hd. unfold enterLine. rewrite Hd. split; reflexivity.
  - intros c xs h Ha. unfold tooltipY. rewrite Ha. simpl. rewrite Hnone.
    reflexivity.
Qed.

(** ** Band order *)

Lemma bandOf_updatePlot (p : Props) (c : Chart) (t : TimeRangeType) (n : string) :
  container c = true ->
  bandOf (updatePlot p c t) n = d3.index_of n (d3.dedup [] (map name (seriesList p))).
Proof.
  intro H. unfold bandOf. rewrite updatePlot_axesRef by exact H. reflexivity.
Qed.

Lemma bandPosition_updatePlot (p : Props) (c : Chart) (t : TimeRangeType) (n : string) :
  container c = true ->
  bandPosition (updatePlot p c t) n =
  d3.band (d3.scaleBand (map name (seriesList p)) 0
             (spikeLineHeight p * length_num (seriesList p) - top (margin p))) n.
Proof.
  intro H. unfold bandPosition. rewrite updatePlot_axesRef by exact H. reflexivity.
Qed.

Lemma same_names_same_length (l l' : list Series) :
  map name l' = map name l -> length_num l' = length_num l.
Proof.
  intro H. unfold length_num.
  rewrite <- (length_map name l'), <- (length_map name l), H. reflexivity.
Qed.

Lemma index_of_dedup (n : string) (l seen : list string) :
  ~ In n seen -> In n l ->
  d3.index_of n (d3.dedup seen l) = Some (List.length (d3.dedup seen (before n l))).
Proof.
  revert seen. induction l as [| m rest IH]; intros seen Hs Hin; [destruct Hin |].
  cbn [before]. destruct (String.eqb n m) eqn:E.
  - apply String.eqb_eq in E. subst m. cbn [d3.dedup].
    destruct (existsb (String.eqb n) seen) eqn:Ex.
    + apply existsb_eqb_In in Ex. contradiction.
    + cbn [d3.index_of]. rewrite String.eqb_refl. reflexivity.
  - assert (Hne : n <> m) by (now apply String.eqb_neq).
    assert (Hr : In n rest) by (destruct Hin as [H | H]; [congruence | exact H]).
    cbn [d3.dedup]. destruct (existsb (String.eqb m) seen) eqn:Ex.
    + now apply IH.
    + cbn [d3.index_of List.length]. rewrite E.
      rewrite (IH (m :: seen)); [reflexivity | | exact Hr].
      intros [H | H]; [congruence | contradiction].
Qed.

Lemma dedup_NoDup (l seen : list string) :
  NoDup l -> (forall x, In x l -> ~ In x seen) -> d3.dedup seen l = l.
Proof.
  intro H. revert seen. induction H as [| m rest Hm _ IH]; intros seen Hs;
    [reflexivity |].
  cbn [d3.dedup]. destruct (existsb (String.eqb m) seen) eqn:Ex.
  - apply existsb_eqb_In in Ex. exfalso. apply (Hs m); [now left | exact Ex].
  - f_equal. apply IH. intros x Hx [H | H].
    + subst x. contradiction.
    + apply (Hs x); [now right | exact H].
Qed.

(** C2, as the code has it.  The band scale is rebuilt from [seriesList] on
    every pass, from the names of the list with every repeated name
    dropped: the band index of a name of the list is the number of distinct
    names that come before its first occurrence in the series list of that
    pass, which is its position in the list when no name is repeated.  A
    pass whose series list has the same names in the same order (data
    appended to the series) gives every name the same band index and, with
    the same height and margin, the same vertical position; a pass whose
    series list is extended at its end gives every name that was present
    the same band index. *)
Theorem band_index_follows_current_seriesList
    (p p' : Props) (c c' : Chart) (t t' : TimeRangeType) (n : string) :
  container c = true -> container c' = true ->
  bandOf (updatePlot p c t) n = d3.index_of n (d3.dedup [] (map name (seriesList p))) /\
  (In n (map name (seriesList p)) ->
     bandOf (updatePlot p c t) n = Some (distinct_before n (map name (seriesList p)))) /\
  (NoDup (map name (seriesList p)) ->
     bandOf (updatePlot p c t) n = d3.index_of n (map name (seriesList p))) /\
  (map name (seriesList p') = map name (seriesList p) ->
     bandOf (updatePlot p' c' t') n = bandOf (updatePlot p c t) n /\
     (height p' = height p -> margin p' = margin p ->
      bandPosition (updatePlot p' c' t') n = bandPosition (updatePlot p c t) n)) /\
  (forall extra, seriesList p' = seriesList p ++ extra ->
     In n (map name (seriesList p)) ->
     bandOf (updatePlot p' c' t') n = bandOf (updatePlot p c t) n).
Proof.
  intros Hc Hc'. split; [now apply bandOf_updatePlot |]. split; [| split; [| split]].
  - intro Hin. rewrite bandOf_updatePlot by assumption.
    now apply index_of_dedup.
  - intro Hnd. rewrite bandOf_updatePlot by assumption.
    rewrite dedup_NoDup; [reflexivity | exact Hnd | tauto].
  - intro Hn. split.
    + rewrite !bandOf_updatePlot by assumption. now rewrite Hn.
    + intros Hh Hm. rewrite !bandPosition_updatePlot by assumption.
      unfold spikeLineHeight, plotDimensions, adjustedDimensions. simpl.
      rewrite Hn, Hh, Hm, (same_names_same_length _ _ Hn). reflexivity.
  - intros extra He Hin. rewrite !bandOf_updatePlot by assumption.
    rewrite He, map_app.
    destruct (dedup_app (map name (seriesList p)) (map name extra) []) as (tail & ->).
    apply index_of_app. apply In_dedup. tauto.
Qed.

(** C2, as the claim has it, fails: after a pass with the series list
    [a; b] the name [a] has band 0, and after a pass with the reordered
    list [b; a] it has band 1. *)
Lemma reordering_moves_the_band :
  bandOf passAB "a" = Some 0%nat /\ bandOf passBA "a" = Some 1%nat /\
  bandOf passAB "a" <> bandOf passBA "a".
Proof.
  assert (H1 : bandOf passAB "a" = Some 0%nat) by (vm_compute; reflexivity).
  assert (H2 : bandOf passBA "a" = Some 1%nat) by (vm_compute; reflexivity).
  rewrite H1, H2. repeat split. discriminate.
Qed.

(** ** Reconciliation of the spike lines *)

Section ReconcileFacts.

Variables (p : Props) (r : TimeRangeType) (xs : d3.ScaleLinear) (lineHeight : Q).

Lemma bound_enterLine (n : string) (y : Q) (d : Datum) :
  bound (enterLine p r xs lineHeight n y d) = d.
Proof. unfold enterLine. destruct (fromStart r d); reflexivity. Qed.

Lemma bound_updateLine (y : Q) (l : SpikeLine) (d : Datum) :
  bound (updateLine p r xs lineHeight y l d) = d.
Proof. unfold updateLine. destruct (fromStart r d); reflexivity. Qed.

(** After the join the lines are bound to the data, one line per datum,
    in order: what entered was created, what was left over was removed. *)
Lemma bound_join (n : string) (y : Q) (ds : list Datum) (old : list SpikeLine) :
  map bound (join p r xs lineHeight n y old ds) = ds.
Proof.
  revert old. induction ds as [| d ds IH]; intro old; simpl; [reflexivity |].
  destruct old as [| l old]; simpl.
  - now rewrite bound_enterLine, IH.
  - now rewrite bound_updateLine, IH.
Qed.


Lemma inView_fromStart (d : Datum) : inView r d = true -> fromStart r d = true.
Proof. unfold inView, fromStart. now intros H%andb_true_iff. Qed.

Lemma find_group_in_group (n id : string) (f : list SpikeLine -> list SpikeLine)
    (gs : list SeriesGroup) :
  find_group n (in_group id f gs) =
  if String.eqb n id
  then option_map (fun g => set_lines (f (g_lines g)) g) (find_group id gs)
  else find_group n gs.
Proof.
  induction gs as [| g rest IH]; simpl.
  - now destruct (String.eqb n id).
  - destruct (String.eqb (g_id g) id) eqn:Eg; simpl.
    + apply String.eqb_eq in Eg.
      destruct (String.eqb n id) eqn:En.
      * apply String.eqb_eq in En. subst n. rewrite Eg, String.eqb_refl.
        reflexivity.
      * apply String.eqb_neq in En.
        assert (E : String.eqb (g_id g) n = false)
          by (apply String.eqb_neq; congruence).
        now rewrite E.
    + destruct (String.eqb (g_id g) n) eqn:Egn.
      * apply String.eqb_eq in Egn. subst n. now rewrite Eg.
      * exact IH.
Qed.

Variable ys : d3.ScaleBand.

Let step := reconcile p r xs lineHeight ys.

Lemma lines_of_reconcile (n : string) (gs : list SeriesGroup) (s : Series) :
  lines_of n (step gs s) =
  if String.eqb n (name s)
  then match find_group n gs with
       | Some g => join p r xs lineHeight (name s) (seriesY ys (name s))
                     (g_lines g) (filter (inView r) (data s))
       | None => []
       end
  else lines_of n gs.
Proof.
  unfold step, reconcile, lines_of. rewrite find_group_in_group.
  destruct (String.eqb n (name s)) eqn:E; [| reflexivity].
  apply String.eqb_eq in E. subst n.
  now destruct (find_group (name s) gs).
Qed.

Lemma find_group_reconcile_Some (n : string) (gs : list SeriesGroup) (s : Series) :
  find_group n gs <> None -> find_group n (step gs s) <> None.
Proof.
  unfold step, reconcile. rewrite find_group_in_group.
  destruct (String.eqb n (name s)) eqn:E; [| auto].
  apply String.eqb_eq in E. subst n.
  destruct (find_group (name s) gs); [discriminate | auto].
Qed.

Lemma lines_of_fold_other (n : string) (l : list Series) (gs : list SeriesGroup) :
  ~ In n (map name l) -> lines_of n (fold_left step l gs) = lines_of n gs.
Proof.
  revert gs. induction l as [| s l IH]; intros gs Hn; simpl; [reflexivity |].
  simpl in Hn. rewrite IH by tauto. rewrite lines_of_reconcile.
  assert (E : String.eqb n (name s) = false) by (apply String.eqb_neq; intuition).
  now rewrite E.
Qed.

(** With unique names, each series decides the lines of its own group. *)
Lemma lines_of_fold (s : Series) (l : list Series) (gs : list SeriesGroup) :
  NoDup (map name l) -> In s l -> find_group (name s) gs <> None ->
  map bound (lines_of (name s) (fold_left step l gs)) = filter (inView r) (data s).
Proof.
  revert gs. induction l as [| s0 l IH]; intros gs Hnd Hin Hg; [contradiction |].
  simpl in *. inversion Hnd as [| ? ? Hnot Hnd']; subst.
  destruct Hin as [-> | Hin].
  - rewrite lines_of_fold_other by exact Hnot.
    rewrite lines_of_reconcile, String.eqb_refl.
    destruct (find_group (name s) gs); [apply bound_join | congruence].
  - apply IH; [exact Hnd' | exact Hin |]. now apply find_group_reconcile_Some.
Qed.


End ReconcileFacts.

Lemma find_group_In (n : string) (gs : list SeriesGroup) :
  In n (map g_id gs) -> find_group n gs <> None.
Proof.
  induction gs as [| g rest IH]; simpl; [tauto |].
  intros [H | H].
  - subst. now rewrite String.eqb_refl.
  - destruct (String.eqb (g_id g) n); [discriminate | auto].
Qed.

Lemma updatePlot_groups (p : Props) (c : Chart) (t : TimeRangeType) :
  container c = true ->
  groups (updatePlot p c t) =
  fold_left
    (reconcile p t
       (d3.mkScaleLinear (start t) (end_ t) 0 (dim_width (plotDimensions p)))
       (spikeLineHeight p)
       (d3.scaleBand (map name (seriesList p)) 0
          (spikeLineHeight p * length_num (seriesList p) - top (margin p))))
    (seriesList p)
    (if mainGRef c
     then groups c ++ map (fun s => mkSeriesGroup (name s) [])
                          (skipn (List.length (groups c)) (seriesList p))
     else groups c).
Proof.
  intro H. pass_field. rewrite setupMainG_groups.
  repeat (autorewrite with pass; fields). reflexivity.
Qed.

(** On every pass after the first, for a series list with unique names
    whose first groups are the ones already in the document, the lines of
    each series are bound to exactly its data in view, in order. *)
Lemma later_pass_renders_in_view (p : Props) (c : Chart) (t : TimeRangeType) (s : Series) :
  container c = true -> mainGRef c = true ->
  NoDup (map name (seriesList p)) ->
  map g_id (groups c) = firstn (List.length (groups c)) (map name (seriesList p)) ->
  In s (seriesList p) ->
  rendered (updatePlot p c t) (name s) = filter (inView t) (data s).
Proof.
  intros Hc Hg Hnd Hids Hin. unfold rendered.
  rewrite updatePlot_groups by exact Hc. rewrite Hg.
  apply lines_of_fold; [exact Hnd | exact Hin |].
  apply find_group_In. rewrite map_app, map_map. simpl.
  rewrite Hids.
  change (fun x : Series => name x) with name.
  rewrite <- skipn_map, firstn_skipn. now apply in_map.
Qed.

(** The pass that creates the main group creates no series group: the
    lines of no series are rendered by it. *)
Lemma first_pass_renders_nothing (p : Props) (c : Chart) (t : TimeRangeType) (n : string) :
  container c = true -> mainGRef c = false -> groups c = [] ->
  rendered (updatePlot p c t) n = [].
Proof.
  intros Hc Hg Hgs. unfold rendered.
  rewrite updatePlot_groups by exact Hc. rewrite Hg, Hgs.
  assert (H : forall l, fold_left
                (reconcile p t
                   (d3.mkScaleLinear (start t) (end_ t) 0 (dim_width (plotDimensions p)))
                   (spikeLineHeight p)
                   (d3.scaleBand (map name (seriesList p)) 0
                      (spikeLineHeight p * length_num (seriesList p) - top (margin p))))
                l [] = []).
  { induction l as [| s l IH]; simpl; [reflexivity | exact IH]. }
  rewrite H. reflexivity.
Qed.

(** C1, at the mount pass.  With the series [n0] of spec section 8.6 and
    the window [[0, 1000]], the pass run by the effect of the mount render
    leaves no line rendered for [n0], while two of its data are in view.
    ([later_pass_renders_in_view] is what holds from the second pass on,
    [first_pass_renders_nothing] is the general form of this one.) *)
Theorem mount_pass_renders_no_spikes :
  rendered firstPass "n0" = [] /\
  filter (inView (TimeRange 0 1000)) (data n0) = [mkDatum 10 1; mkDatum 500 1] /\
  rendered secondPass "n0" = [mkDatum 10 1; mkDatum 500 1].
Proof. vm_compute. repeat split. Qed.

(** ** The pass and the selector of each series *)



Lemma beforeSeries_container (p : Props) (c : Chart) (t : TimeRangeType) :
  container (beforeSeries p c t) = container c.
Proof.
  unfold beforeSeries. cbv zeta. repeat (autorewrite with pass; fields). reflexivity.
Qed.

Lemma beforeSeries_axesRef (p : Props) (c : Chart) (t : TimeRangeType) :
  axesRef (beforeSeries p c t) <> None.
Proof.
  unfold beforeSeries. cbv zeta. rewrite setupAxes_axesRef. discriminate.
Qed.








(** ** Tooltip *)

Lemma nth_error_update_nth {A : Type} (f : A -> A) (l : list A) (i : nat) :
  nth_error (update_nth i f l) i = option_map f (nth_error l i).
Proof.
  revert i. induction l as [| a l IH]; intros [| i]; simpl; auto.
Qed.

Lemma Forall_update_nth {A : Type} (P : A -> Prop) (f : A -> A) (l : list A) (i : nat) :
  (forall a, P a -> P (f a)) -> Forall P l -> Forall P (update_nth i f l).
Proof.
  intros Hf. revert i. induction l as [| a l IH]; intros i H; [destruct i; constructor |].
  inversion H; subst. destruct i; simpl; constructor; auto.
Qed.

Lemma line_at_restyle_at (c : Chart) (gi li : nat) (col : string) (w : Q) :
  line_at (restyle_at gi li col w c) gi li = option_map (restyle col w) (line_at c gi li).
Proof.
  unfold line_at, restyle_at. fields. rewrite nth_error_update_nth.
  destruct (nth_error (groups c) gi) as [g |]; simpl; [| reflexivity].
  apply nth_error_update_nth.
Qed.

Lemma handlers_attached_line (c : Chart) (gi li : nat) (l : SpikeLine) :
  handlers_attached c -> line_at c gi li = Some l -> handlers l <> None.
Proof.
  unfold handlers_attached, line_at. intros H Hl.
  destruct (nth_error (groups c) gi) as [g |] eqn:Eg; [| discriminate].
  apply nth_error_In in Eg, Hl.
  rewrite Forall_forall in H. specialize (H g Eg).
  rewrite Forall_forall in H. now apply H.
Qed.

Section HandlersAttached.

Variables (p : Props) (r : TimeRangeType) (xs : d3.ScaleLinear) (lineHeight : Q).

Let attached (l : SpikeLine) : Prop := handlers l <> None.

(** The listeners are attached to every entering line, whatever the
    tooltip style says, and stay on the lines that are updated. *)
Lemma join_attached (n : string) (y : Q) (ds : list Datum) (old : list SpikeLine) :
  Forall (fun d => fromStart r d = true) ds -> Forall attached old ->
  Forall attached (join p r xs lineHeight n y old ds).
Proof.
  revert old. induction ds as [| d ds IH]; intros old Hd Hold; simpl; [constructor |].
  inversion Hd as [| ? ? Hd1 Hd2]; subst.
  destruct old as [| l old].
  - constructor; [| apply IH; [exact Hd2 | constructor]].
    unfold attached, enterLine. rewrite Hd1. simpl. discriminate.
  - inversion Hold; subst. constructor; [| now apply IH].
    unfold attached, updateLine. rewrite Hd1. simpl. assumption.
Qed.

Lemma in_group_attached (id : string) (f : list SpikeLine -> list SpikeLine)
    (gs : list SeriesGroup) :
  (forall ls, Forall attached ls -> Forall attached (f ls)) ->
  Forall (fun g => Forall attached (g_lines g)) gs ->
  Forall (fun g => Forall attached (g_lines g)) (in_group id f gs).
Proof.
  intros Hf. induction gs as [| g rest IH]; intro H; simpl; [constructor |].
  inversion H; subst.
  destruct (String.eqb (g_id g) id); constructor; simpl; auto.
Qed.

Lemma fold_reconcile_attached (ys : d3.ScaleBand) (l : list Series)
    (gs : list SeriesGroup) :
  Forall (fun g => Forall attached (g_lines g)) gs ->
  Forall (fun g => Forall attached (g_lines g))
    (fold_left (reconcile p r xs lineHeight ys) l gs).
Proof.
  revert gs. induction l as [| s l IH]; intros gs H; simpl; [exact H |].
  apply IH. unfold reconcile. apply in_group_attached; [| exact H].
  intros ls Hls. apply join_attached; [| exact Hls].
  apply Forall_forall. intros d Hd. apply filter_In in Hd.
  now apply (inView_fromStart r).
Qed.

End HandlersAttached.

Lemma updatePlot_groups_unmounted (p : Props) (c : Chart) (t : TimeRangeType) :
  container c = false -> groups (updatePlot p c t) = groups c.
Proof. intro H. pass_field. Qed.

Lemma updatePlot_handlers_attached (p : Props) (c : Chart) (t : TimeRangeType) :
  handlers_attached c -> handlers_attached (updatePlot p c t).
Proof.
  unfold handlers_attached. intro H.
  destruct (container c) eqn:Hc.
  - rewrite updatePlot_groups by exact Hc. apply fold_reconcile_attached.
    destruct (mainGRef c); [| exact H].
    apply Forall_app. split; [exact H |].
    apply Forall_forall. intros g Hg. apply in_map_iff in Hg.
    destruct Hg as (s & <- & _). constructor.
  - now rewrite updatePlot_groups_unmounted.
Qed.

Lemma mounted_handlers_attached (p : Props) : handlers_attached (mounted p).
Proof. constructor. Qed.

Lemma mouseover_hidden (c : Chart) (gi li : nat) (m : TextMetrics) :
  handlers_attached c -> tooltip_visible (tooltipRef c) = false ->
  line_at c gi li <> None ->
  mouseover c gi li m = Some c.
Proof.
  intros Hh Hv Hl. unfold mouseover.
  destruct (line_at c gi li) as [l |] eqn:El; [| congruence].
  pose proof (handlers_attached_line c gi li l Hh El) as Hsome.
  destruct (handlers l) as [h |]; [| congruence].
  unfold handleShowTooltip. now rewrite Hv.
Qed.

Lemma mouseover_visible (c : Chart) (gi li : nat) (m : TextMetrics) :
  handlers_attached c -> tooltip_visible (tooltipRef c) = true ->
  axesRef c <> None -> line_at c gi li <> None ->
  exists c' col w,
    mouseover c gi li m = Some c' /\
    map tag_of (tooltipEls c') = map tag_of (tooltipEls c) ++ [rect; text; text] /\
    groups c' = groups (restyle_at gi li col w c) /\
    tooltipRef c' = tooltipRef c.
Proof.
  intros Hh Hv Ha Hl. unfold mouseover.
  destruct (line_at c gi li) as [l |] eqn:El; [| congruence].
  pose proof (handlers_attached_line c gi li l Hh El) as Hsome.
  destruct (handlers l) as [h |]; [| congruence].
  destruct (axesRef c) as [a |] eqn:Ea; [| congruence].
  unfold handleShowTooltip, tooltipX, tooltipY, restyle_at. fields.
  rewrite Hv, Ea. simpl negb. cbv iota.
  eexists. eexists. eexists. split; [reflexivity |]. fields.
  rewrite map_app. simpl. repeat split.
Qed.

Lemma mouseleave_visible (c : Chart) (gi li : nat) :
  handlers_attached c -> tooltip_visible (tooltipRef c) = true ->
  line_at c gi li <> None ->
  exists c', mouseleave c gi li = Some c' /\ tooltipEls c' = [].
Proof.
  intros Hh Hv Hl. unfold mouseleave.
  destruct (line_at c gi li) as [l |] eqn:El; [| congruence].
  pose proof (handlers_attached_line c gi li l Hh El) as Hsome.
  destruct (handlers l) as [h |]; [| congruence].
  eexists. split; [reflexivity |].
  unfold handleHideTooltip, restyle_at. fields. now rewrite Hv.
Qed.

Lemma restyle_at_handlers_attached (c : Chart) (gi li : nat) (col : string) (w : Q) :
  handlers_attached c -> handlers_attached (restyle_at gi li col w c).
Proof.
  unfold handlers_attached, restyle_at. fields. intro H.
  apply Forall_update_nth; [| exact H].
  intros g Hg. simpl. apply Forall_update_nth; [| exact Hg]. auto.
Qed.

(** C5.  The tooltip flag is read through [tooltipRef] when a handler
    runs, and every pass stores the current style there.  So, on a chart
    that shows no tooltip: after a pass with the tooltip turned off every
    spike still has its listeners, and hovering one adds no tooltip
    element; after a further pass with the tooltip turned on, hovering the
    same spike adds one rectangle and two texts, and leaving it removes
    every tooltip element. *)
Theorem tooltip_toggle_takes_effect
    (pOff pOn : Props) (c0 : Chart) (t1 t2 : TimeRangeType) (gi li : nat)
    (m : TextMetrics) :
  container c0 = true -> handlers_attached c0 -> tooltipEls c0 = [] ->
  tooltip_visible (tooltip pOff) = false ->
  tooltip_visible (tooltip pOn) = true ->
  line_at (updatePlot pOff c0 t1) gi li <> None ->
  line_at (updatePlot pOn (updatePlot pOff c0 t1) t2) gi li <> None ->
  handlers_attached (updatePlot pOff c0 t1) /\
  exists c2,
    mouseover (updatePlot pOff c0 t1) gi li m = Some c2 /\
    tooltipEls c2 = [] /\
    exists c4,
      mouseover (updatePlot pOn c2 t2) gi li m = Some c4 /\
      map tag_of (tooltipEls c4) = [rect; text; text] /\
      exists c5, mouseleave c4 gi li = Some c5 /\ tooltipEls c5 = [].
Proof.
  intros Hc Hh Hnone Hoff Hon Hl1 Hl3.
  set (c1 := updatePlot pOff c0 t1) in *.
  assert (Hh1 : handlers_attached c1) by now apply updatePlot_handlers_attached.
  split; [exact Hh1 |].
  exists c1. split.
  { apply mouseover_hidden; [exact Hh1 | | exact Hl1].
    unfold c1. now rewrite updatePlot_tooltipRef. }
  split; [unfold c1; now rewrite updatePlot_tooltipEls |].
  set (c3 := updatePlot pOn c1 t2) in *.
  assert (Hc1 : container c1 = true) by (unfold c1; now rewrite updatePlot_container).
  assert (Hh3 : handlers_attached c3) by now apply updatePlot_handlers_attached.
  assert (Hv3 : tooltip_visible (tooltipRef c3) = true)
    by (unfold c3; now rewrite updatePlot_tooltipRef).
  assert (Ha3 : axesRef c3 <> None)
    by (unfold c3; rewrite updatePlot_axesRef by exact Hc1; discriminate).
  destruct (mouseover_visible c3 gi li m Hh3 Hv3 Ha3 Hl3)
    as (c4 & col & w & Hover & Htags & Hgroups & Href).
  exists c4. split; [exact Hover |]. split.
  { rewrite Htags. unfold c3, c1.
    now rewrite !updatePlot_tooltipEls, Hnone. }
  apply mouseleave_visible.
  - unfold handlers_attached. rewrite Hgroups.
    now apply restyle_at_handlers_attached.
  - now rewrite Href.
  - unfold line_at. rewrite Hgroups.
    fold (line_at (restyle_at gi li col w c3) gi li).
    rewrite line_at_restyle_at.
    destruct (line_at c3 gi li); [discriminate | congruence].
Qed.

(** ** The scenario of spec section 8.6, and the operations on examples *)

Example scale_about_the_middle :
  same (scale 2 500 (TimeRange 0 1000)) (TimeRange 250 750).
Proof. split; reflexivity. Qed.

Example translate_by_three_hundred :
  translate 300 (TimeRange 0 1000) = TimeRange (0 + 300) (1000 + 300).
Proof. reflexivity. Qed.

Example scenario_second_pass :
  rendered secondPass "n0" = [mkDatum 10 1; mkDatum 500 1].
Proof. reflexivity. Qed.

(** Dragging by -249 pixels, 300 ms at 830 pixels for 1000 ms, moves the
    window to [[300, 1300]]: the line of time 10 exits, the one of time
    1200 enters. *)
Example scenario_pan :
  match onPan (scenarioProps false [n0]) secondPass (-249) with
  | Some c => same (timeRangeRef c) (TimeRange 300 1300) /\
              rendered c "n0" = [mkDatum 500 1; mkDatum 1200 1]
  | None => False
  end.
Proof. vm_compute. repeat split. Qed.

(** On a scale with a proper domain and range, the time delta of a drag is
    the pixel delta times the time per pixel. *)
Lemma panDelta_linear (s : d3.ScaleLinear) (t deltaX : Q) :
  ~ d3.domain1 s - d3.domain0 s == 0 -> ~ d3.range1 s - d3.range0 s == 0 ->
  panDelta s t deltaX ==
  deltaX * (d3.domain1 s - d3.domain0 s) / (d3.range1 s - d3.range0 s).
Proof.
  intros Hd Hr. unfold panDelta, d3.invert, d3.apply, d3.interpolate, d3.normalize.
  destruct (Qeq_bool (d3.domain1 s - d3.domain0 s) 0) eqn:Ed;
    [apply Qeq_bool_iff in Ed; contradiction |].
  destruct (Qeq_bool (d3.range1 s - d3.range0 s) 0) eqn:Er;
    [apply Qeq_bool_iff in Er; contradiction |].
  field. split; assumption.
Qed.

(** ** The theorems at concrete charts *)

Lemma gestures_preserve_valid_witness :
  container secondPass = true /\ axesRef secondPass <> None /\
  valid (timeRangeRef secondPass) /\
  exists c', gestures secondPass [Zoom 0 400; Drag (-255); Zoom 25 120] = Some c' /\
             valid (timeRangeRef c').
Proof.
  assert (H1 : container secondPass = true) by reflexivity.
  assert (H2 : axesRef secondPass <> None) by (vm_compute; discriminate).
  assert (H3 : valid (timeRangeRef secondPass)) by (vm_compute; discriminate).
  split; [exact H1 |]. split; [exact H2 |]. split; [exact H3 |].
  exact (gestures_preserve_valid [Zoom 0 400; Drag (-255); Zoom 25 120]
           secondPass H1 H2 H3).
Defined.

Lemma onPan_translates_keeping_width_witness :
  axesRef secondPass = Some secondPassAxes /\
  exists c',
    onPan (scenarioProps false [n0]) secondPass (-255) = Some c' /\
    timeRangeRef c' =
      translate
        (- (d3.invert (xScale secondPassAxes)
              (d3.apply (xScale secondPassAxes) (start (timeRangeRef secondPass))
               + -255)
            - start (timeRangeRef secondPass)))
        (timeRangeRef secondPass) /\
    span (timeRangeRef c') == span (timeRangeRef secondPass).
Proof.
  assert (H : axesRef secondPass = Some secondPassAxes) by (vm_compute; reflexivity).
  split; [exact H |].
  exact (onPan_translates_keeping_width (scenarioProps false [n0]) secondPass
           (-255) secondPassAxes H).
Defined.

Lemma boundary_is_outside_plot_area_witness :
  on_boundary (scenarioProps false [n0]) 50 100 /\
  container secondPass = true /\
  mouseInPlotArea (scenarioProps false [n0]) 50 100 = false /\
  (forall t, trackerRef secondPass = Some t ->
     option_map trk_opacity
       (trackerRef (handleShowTracker (scenarioProps false [n0]) secondPass 50 100))
     = Some 0) /\
  (forall m a, magnifierRef secondPass = Some m -> axesRef secondPass = Some a ->
     exists c',
       handleShowMagnify flatLens (scenarioProps false [n0]) secondPass 50 100 = Some c' /\
       option_map mag_opacity (magnifierRef c') = Some 0) /\
  (forall x' y', mouseInPlotArea (scenarioProps false [n0]) x' y' = true <->
     left (margin (scenarioProps false [n0])) < x' /\
     x' < width (scenarioProps false [n0]) - right (margin (scenarioProps false [n0])) /\
     top (margin (scenarioProps false [n0])) < y' /\
     y' < height (scenarioProps false [n0]) - bottom (margin (scenarioProps false [n0]))).
Proof.
  assert (H1 : on_boundary (scenarioProps false [n0]) 50 100)
    by (left; reflexivity).
  assert (H2 : container secondPass = true) by reflexivity.
  split; [exact H1 |]. split; [exact H2 |].
  exact (boundary_is_outside_plot_area flatLens (scenarioProps false [n0])
           secondPass 50 100 H1 H2).
Defined.

Lemma missing_band_defaults_to_zero_witness :
  d3.band (yScale secondPassAxes) "ghost" = None /\
  gridLineY (scenarioProps false [n0]) (yScale secondPassAxes) 340 "ghost"
    = 0 + top (margin (scenarioProps false [n0])) + 340 / 2 /\
  seriesY (yScale secondPassAxes) "ghost" = 0.
Proof.
  assert (H : d3.band (yScale secondPassAxes) "ghost" = None) by reflexivity.
  split; [exact H |].
  destruct (missing_band_defaults_to_zero (scenarioProps false [n0])
              (yScale secondPassAxes) 340 "ghost" H) as (Hg & Hs & _).
  split; [exact Hg | exact Hs].
Defined.

Lemma band_index_follows_current_seriesList_witness :
  container (mounted (scenarioProps false [seriesA; seriesB])) = true /\
  container passAB = true /\
  bandOf passAB "b" = d3.index_of "b" (d3.dedup [] ["a"%string; "b"%string]) /\
  bandOf passAB "b" = Some (distinct_before "b" ["a"%string; "b"%string]) /\
  bandOf (updatePlot (scenarioProps false [seriesA; seriesB; n0]) passAB
            (TimeRange 0 1000)) "b"
    = bandOf passAB "b".
Proof.
  assert (H1 : container (mounted (scenarioProps false [seriesA; seriesB])) = true)
    by reflexivity.
  assert (H2 : container passAB = true) by reflexivity.
  split; [exact H1 |]. split; [exact H2 |].
  destruct (band_index_follows_current_seriesList
              (scenarioProps false [seriesA; seriesB])
              (scenarioProps false [seriesA; seriesB; n0])
              (mounted (scenarioProps false [seriesA; seriesB])) passAB
              (TimeRange 0 1000) (TimeRange 0 1000) "b" H1 H2)
    as (Hidx & Hbefore & _ & _ & Hext).
  split; [exact Hidx |]. split; [apply Hbefore; simpl; tauto |].
  apply (Hext [n0]); [reflexivity | simpl; tauto].
Defined.



Lemma tooltip_toggle_takes_effect_witness :
  container firstPass = true /\ handlers_attached firstPass /\
  tooltipEls firstPass = [] /\
  line_at (updatePlot (scenarioProps false [n0]) firstPass (TimeRange 0 1000)) 0 0
    <> None /\
  exists c2,
    mouseover (updatePlot (scenarioProps false [n0]) firstPass (TimeRange 0 1000))
      0 0 sampleMetrics = Some c2 /\
    tooltipEls c2 = [] /\
    exists c4,
      mouseover (updatePlot (scenarioProps true [n0]) c2 (TimeRange 0 1000))
        0 0 sampleMetrics = Some c4 /\
      map tag_of (tooltipEls c4) = [rect; text; text] /\
      exists c5, mouseleave c4 0 0 = Some c5 /\ tooltipEls c5 = [].
Proof.
  assert (H1 : container firstPass = true) by reflexivity.
  assert (H2 : handlers_attached firstPass) by (vm_compute; constructor).
  assert (H3 : tooltipEls firstPass = []) by reflexivity.
  assert (H4 : line_at (updatePlot (scenarioProps false [n0]) firstPass
                          (TimeRange 0 1000)) 0 0 <> None)
    by (vm_compute; discriminate).
  assert (H5 : line_at (updatePlot (scenarioProps true [n0])
                          (updatePlot (scenarioProps false [n0]) firstPass
                             (TimeRange 0 1000)) (TimeRange 0 1000)) 0 0 <> None)
    by (vm_compute; discriminate).
  split; [exact H1 |]. split; [exact H2 |]. split; [exact H3 |]. split; [exact H4 |].
  exact (proj2 (tooltip_toggle_takes_effect (scenarioProps false [n0])
                  (scenarioProps true [n0]) firstPass (TimeRange 0 1000)
                  (TimeRange 0 1000) 0 0 sampleMetrics H1 H2 H3 eq_refl eq_refl
                  H4 H5)).
Defined.

(** * Further properties of the chart *)

(** ** Plot area and tooltip placement *)

Lemma Math_max_l (x y : Q) : x <= Math_max x y.
Proof.
  unfold Math_max. destruct (Qle_bool x y) eqn:E.
  - now apply Qle_bool_iff.
  - apply Qle_refl.
Qed.





Lemma Math_max_lub (x y z : Q) : x <= z -> y <= z -> Math_max x y <= z.
Proof. intros Hx Hy. unfold Math_max. now destruct (Qle_bool x y). Qed.

(** X1.  The pointer is in the plot area exactly when its offset from the
    corner the left and top margins make lies strictly inside the adjusted
    dimensions; so the plot area has a point exactly when both adjusted
    dimensions are positive. *)
Theorem plot_area_is_the_adjusted_rectangle (p : Props) :
  (forall x y,
     mouseInPlotArea p x y = true <->
     0 < x - left (margin p) /\ x - left (margin p) < dim_width (plotDimensions p) /\
     0 < y - top (margin p) /\ y - top (margin p) < dim_height (plotDimensions p)) /\
  ((exists x y, mouseInPlotArea p x y = true) <->
   0 < dim_width (plotDimensions p) /\ 0 < dim_height (plotDimensions p)).
Proof.
  assert (H : forall x y,
     mouseInPlotArea p x y = true <->
     0 < x - left (margin p) /\ x - left (margin p) < dim_width (plotDimensions p) /\
     0 < y - top (margin p) /\ y - top (margin p) < dim_height (plotDimensions p)).
  { intros x y. rewrite mouseInPlotArea_iff.
    unfold plotDimensions, adjustedDimensions. simpl. split; intros (A & B & C & D);
      repeat split; lra. }
  split; [exact H |]. split.
  - intros (x & y & Hin). apply H in Hin. destruct Hin as (A & B & C & D).
    split; lra.
  - intros (Hw & Hh).
    exists (left (margin p) + dim_width (plotDimensions p) * (1 # 2)).
    exists (top (margin p) + dim_height (plotDimensions p) * (1 # 2)).
    apply H. repeat split; lra.
Qed.


(** X3.  The tooltip is never placed at or above the top edge of the svg.
    With the band of the series not above the svg and a positive line
    height, [tooltipY] is positive: it is the position above the spike
    exactly when that position is positive, and otherwise the position one
    line height below the top of the band. *)
Theorem tooltipY_is_positive (p : Props) (c : Chart) (a : Axes) (n : string) (h : Q) :
  axesRef c = Some a ->
  0 <= seriesY (yScale a) n + top (margin p) ->
  0 < spikeLineHeight p ->
  exists ty,
    tooltipY p c n h = Some ty /\ 0 < ty /\
    (let above := seriesY (yScale a) n + top (margin p)
                  - paddingBottom (tooltip p) - h - paddingTop (tooltip p) in
     (0 < above -> ty == above) /\
     (~ 0 < above -> ty == seriesY (yScale a) n + top (margin p) + spikeLineHeight p)).
Proof.
  intros Ha Hband Hlh. unfold tooltipY. rewrite Ha. fold (seriesY (yScale a) n).
  eexists. split; [reflexivity |]. cbv zeta.
  destruct (Qlt_bool 0
              (seriesY (yScale a) n + top (margin p) - paddingBottom (tooltip p)
               - h - paddingTop (tooltip p))) eqn:E.
  - apply Qlt_bool_iff in E. split; [exact E |]. split.
    + intros _. reflexivity.
    + intro H. contradiction.
  - assert (Hn : ~ 0 < seriesY (yScale a) n + top (margin p)
                       - paddingBottom (tooltip p) - h - paddingTop (tooltip p)).
    { intro H. apply Qlt_bool_iff in H. congruence. }
    split; [lra |]. split.
    + intro H. contradiction.
    + intros _. lra.
Qed.

(** ** Passes over the series groups *)





Section PassFacts.

Variables (p : Props) (r : TimeRangeType) (xs : d3.ScaleLinear) (lineHeight : Q).
Variable ys : d3.ScaleBand.

Let step := reconcile p r xs lineHeight ys.






End PassFacts.















(** ** Grid lines and overlays *)

Section MoreSteps.

Variables (p : Props) (c : Chart).

Lemma setupMagnifier_gridLines : gridLines (setupMagnifier p c) = gridLines c.
Proof. by_cases_of setupMagnifier. Qed.
Lemma setupMagnifier_trackerRef : trackerRef (setupMagnifier p c) = trackerRef c.
Proof. by_cases_of setupMagnifier. Qed.

Lemma setupTracker_gridLines : gridLines (setupTracker p c) = gridLines c.
Proof. by_cases_of setupTracker. Qed.
Lemma setupTracker_magnifierRef : magnifierRef (setupTracker p c) = magnifierRef c.
Proof. by_cases_of setupTracker. Qed.

Lemma setupMainG_gridLines : gridLines (setupMainG p c) = gridLines c.
Proof. by_cases_of setupMainG. Qed.
Lemma setupMainG_magnifierRef : magnifierRef (setupMainG p c) = magnifierRef c.
Proof. by_cases_of setupMainG. Qed.
Lemma setupMainG_trackerRef : trackerRef (setupMainG p c) = trackerRef c.
Proof. by_cases_of setupMainG. Qed.
Lemma setupMainG_onMousemove : onMousemove (setupMainG p c) = onMousemove c.
Proof. by_cases_of setupMainG. Qed.

Variables (xs : d3.ScaleLinear) (ys : d3.ScaleBand) (lineHeight : Q).

Lemma setupAxes_magnifierRef :
  magnifierRef (setupAxes p xs ys lineHeight c) = magnifierRef c.
Proof. by_cases_of setupAxes. Qed.
Lemma setupAxes_trackerRef :
  trackerRef (setupAxes p xs ys lineHeight c) = trackerRef c.
Proof. by_cases_of setupAxes. Qed.
Lemma setupAxes_onMousemove :
  onMousemove (setupAxes p xs ys lineHeight c) = onMousemove c.
Proof. by_cases_of setupAxes. Qed.

End MoreSteps.

#[local] Hint Rewrite
  setupMagnifier_gridLines setupMagnifier_trackerRef
  setupTracker_gridLines setupTracker_magnifierRef
  setupMainG_gridLines setupMainG_magnifierRef setupMainG_trackerRef
  setupMainG_onMousemove
  setupAxes_magnifierRef setupAxes_trackerRef setupAxes_onMousemove : pass.




Lemma updatePlot_magnifierRef (p : Props) (c : Chart) (t : TimeRangeType) :
  container c = true ->
  magnifierRef (updatePlot p c t) =
  magnifierRef (setupMagnifier p (set_timeRange t (set_tooltipRef (tooltip p) c))).
Proof. intro H. pass_field. Qed.

Lemma updatePlot_trackerRef (p : Props) (c : Chart) (t : TimeRangeType) :
  container c = true ->
  trackerRef (updatePlot p c t) =
  trackerRef (setupTracker p
                (setupMagnifier p (set_timeRange t (set_tooltipRef (tooltip p) c)))).
Proof. intro H. pass_field. Qed.

Lemma updatePlot_onMousemove (p : Props) (c : Chart) (t : TimeRangeType) :
  container c = true ->
  onMousemove (updatePlot p c t) =
  onMousemove (setupTracker p
                 (setupMagnifier p (set_timeRange t (set_tooltipRef (tooltip p) c)))).
Proof. intro H. pass_field. Qed.

Lemma overlay_refs_iff (p : Props) (c : Chart) (t : TimeRangeType) :
  container c = true ->
  (magnifierRef (updatePlot p c t) <> None <-> magnifier_visible (magnifier p) = true) /\
  (trackerRef (updatePlot p c t) <> None <-> tracker_visible (tracker p) = true).
Proof.
  intro Hc. split.
  - rewrite updatePlot_magnifierRef by exact Hc. unfold setupMagnifier. fields.
    destruct (magnifier_visible (magnifier p)) eqn:V, (magnifierRef c) eqn:M;
      fields; rewrite ?M; split; intro H; congruence.
  - rewrite updatePlot_trackerRef by exact Hc. unfold setupTracker.
    rewrite setupMagnifier_trackerRef. fields.
    destruct (tracker_visible (tracker p)) eqn:V, (trackerRef c) eqn:M;
      fields; rewrite ?setupMagnifier_trackerRef; fields; rewrite ?M;
      split; intro H; congruence.
Qed.

(** X11.  After every pass on a mounted chart the magnifier ref is set
    exactly when the magnifier style is visible, and the tracker ref
    exactly when the tracker style is visible. *)
Theorem overlay_refs_follow_visibility (p : Props) (c : Chart) (t : TimeRangeType) :
  container c = true ->
  (magnifierRef (updatePlot p c t) <> None <-> magnifier_visible (magnifier p) = true) /\
  (trackerRef (updatePlot p c t) <> None <-> tracker_visible (tracker p) = true).
Proof. exact (overlay_refs_iff p c t). Qed.

(** X12.  There is one [mousemove] listener on the svg.  A pass that sets
    up the tracker registers the tracker's listener last, so in a pass
    that sets up both overlays the magnifier's listener is replaced: the
    lens exists, and a mouse move moves the tracker and leaves the lens
    as it was. *)
Theorem tracker_listener_replaces_magnifier_listener
    (BarMagnifier : Q -> Q -> Q -> Q -> LensTransformation)
    (p : Props) (c : Chart) (t : TimeRangeType) (x y : Q) :
  container c = true ->
  magnifier_visible (magnifier p) = true -> magnifierRef c = None ->
  tracker_visible (tracker p) = true -> trackerRef c = None ->
  magnifierRef (updatePlot p c t) <> None /\
  onMousemove (updatePlot p c t) = Some (ShowTracker p) /\
  exists c',
    mousemove BarMagnifier (updatePlot p c t) x y = Some c' /\
    magnifierRef c' = magnifierRef (updatePlot p c t) /\
    option_map trk_x1 (trackerRef c') = Some x.
Proof.
  intros Hc Hmv Hm Htv Ht.
  assert (Hl : onMousemove (updatePlot p c t) = Some (ShowTracker p)).
  { rewrite updatePlot_onMousemove by exact Hc. unfold setupTracker.
    rewrite setupMagnifier_trackerRef. fields. now rewrite Htv, Ht. }
  assert (Htr : trackerRef (updatePlot p c t) <> None).
  { now apply (overlay_refs_iff p c t Hc). }
  split; [now apply (overlay_refs_iff p c t Hc) |].
  split; [exact Hl |].
  unfold mousemove. rewrite Hl. eexists. split; [reflexivity |].
  unfold handleShowTracker. rewrite updatePlot_container, Hc.
  destruct (trackerRef (updatePlot p c t)) as [path |]; [| congruence].
  fields. split; reflexivity.
Qed.

(** ** The magnifier lens *)

Ltac fields_in H :=
  cbn [container mainGRef groups gridLines axesRef magnifierRef trackerRef
       onMousemove dragZoom tooltipEls tooltipRef timeRangeRef mouseCoordsRef
       zoomFactorRef set_axes set_groups set_mainG set_dragZoom set_tracker
       set_magnifier set_timeRange set_tooltipRef set_tooltipEls
       set_mouseCoords set_zoomFactor] in H.

Lemma line_at_map_spikes (f : SpikeLine -> SpikeLine) (c : Chart) (gi li : nat) :
  line_at (set_groups (map_spikes f (groups c)) c) gi li =
  option_map (fun l => if spikes_class l then f l else l) (line_at c gi li).
Proof.
  unfold line_at, map_spikes. fields. rewrite nth_error_map.
  destruct (nth_error (groups c) gi) as [g |]; simpl; [| reflexivity].
  apply nth_error_map.
Qed.


Section LensFacts.

Variable BarMagnifier : Q -> Q -> Q -> Q -> LensTransformation.
Variables (p : Props) (c : Chart) (x y : Q) (path : MagnifierRect).
Hypothesis Hc : container c = true.
Hypothesis Hpath : magnifierRef c = Some path.

(** X13.  The lens transform is throttled: while the pointer is in the plot
    area and less than one pixel from where the transform was last
    computed, a mouse move only re-centres the lens rectangle on the
    pointer; no spike line is touched and the remembered position stays. *)
Theorem magnifier_small_moves_only_move_the_lens :
  mouseInPlotArea p x y = true -> Math_abs (x - mouseCoordsRef c) < 1 ->
  exists c',
    handleShowMagnify BarMagnifier p c x y = Some c' /\
    groups c' = groups c /\ mouseCoordsRef c' = mouseCoordsRef c /\
    magnifierRef c' =
      Some (mkMagnifierRect (x - magnifier_width (magnifier p) / 2)
              (2 * (magnifier_width (magnifier p) / 2))
              (mag_y path) (mag_height path) 1).
Proof.
  intros Hin Hnear. unfold handleShowMagnify. rewrite Hc, Hpath, Hin.
  assert (E : Qle_bool 1 (Math_abs (x - mouseCoordsRef c)) = false).
  { destruct (Qle_bool 1 (Math_abs (x - mouseCoordsRef c))) eqn:E; [| reflexivity].
    apply Qle_bool_iff in E. lra. }
  rewrite E. simpl. eexists. split; [reflexivity |]. fields. auto.
Qed.

(** X14.  When the pointer is outside the plot area, a mouse move undoes
    the lens: every spike line is put back at the x scale of its datum with
    the style's line width, the lens rectangle is hidden with width 0 at
    the left margin, and the remembered position is reset to 0.  The data
    bound to the lines and their listeners are as before. *)
Theorem magnifier_outside_restores_the_lines (a : Axes) :
  mouseInPlotArea p x y = false -> axesRef c = Some a ->
  exists c',
    handleShowMagnify BarMagnifier p c x y = Some c' /\
    mouseCoordsRef c' = 0 /\
    magnifierRef c' =
      Some (mkMagnifierRect (left (margin p)) 0 (mag_y path) (mag_height path) 0) /\
    forall gi li l,
      line_at c gi li = Some l ->
      exists l',
        line_at c' gi li = Some l' /\ bound l' = bound l /\
        handlers l' = handlers l /\
        (spikes_class l = true ->
         x1 l' = d3.apply (xScale a) (time (bound l)) /\ x2 l' = x1 l' /\
         stroke_width l' = spikes_lineWidth (spikesStyle p)) /\
        (spikes_class l = false -> l' = l).
Proof.
  intros Hout Ha. unfold handleShowMagnify. rewrite Hc, Hpath, Hout. simpl.
  unfold with_xScale. fields. rewrite Ha. eexists. split; [reflexivity |].
  fields. split; [reflexivity |]. split; [reflexivity |].
  intros gi li l Hl.
  pose proof (line_at_map_spikes
                (fun l0 => reposition (xFrom (xScale a) (bound l0))
                             (spikes_lineWidth (spikesStyle p)) l0)
                c gi li) as Hmap.
  unfold line_at in *. fields. fields_in Hmap. rewrite Hmap, Hl. simpl.
  eexists. split; [reflexivity |].
  destruct (spikes_class l) eqn:Ecl; simpl.
  - split; [reflexivity |]. split; [reflexivity |].
    split; [intros _; repeat split | discriminate].
  - split; [reflexivity |]. split; [reflexivity |].
    split; [discriminate | reflexivity].
Qed.


End LensFacts.

(** ** Pixels and times *)

(** X16.  After a pass over a window of non-zero width on a plot of
    non-zero width, the x scale in [axesRef] converts pixels to times at
    window width per plot width: the pivot [onZoom] takes for a pointer
    [x] pixels into the plot is [start + x * (end - start) / width], and
    the time delta [onPan] takes for a drag of [deltaX] pixels is
    [deltaX * (end - start) / width]. *)
Theorem pass_scale_converts_pixels_to_times
    (p : Props) (c : Chart) (t : TimeRangeType) (x deltaX : Q) :
  container c = true ->
  ~ end_ t - start t == 0 -> ~ dim_width (plotDimensions p) == 0 ->
  exists a,
    axesRef (updatePlot p c t) = Some a /\
    d3.invert (xScale a) x
      == start t + x * (end_ t - start t) / dim_width (plotDimensions p) /\
    panDelta (xScale a) (start t) deltaX
      == deltaX * (end_ t - start t) / dim_width (plotDimensions p).
Proof.
  intros Hc Ht Hw. exists (mkAxes (passXScale p t) (passYScale p)).
  split; [now apply updatePlot_axesRef |].
  cbn [xScale]. split.
  - unfold d3.invert, d3.interpolate, d3.normalize, passXScale.
    cbn [d3.domain0 d3.domain1 d3.range0 d3.range1].
    destruct (Qeq_bool (dim_width (plotDimensions p) - 0) 0) eqn:E.
    + apply Qeq_bool_iff in E. exfalso. apply Hw. lra.
    + field. exact Hw.
  - rewrite panDelta_linear; unfold passXScale;
      cbn [d3.domain0 d3.domain1 d3.range0 d3.range1].
    + field. exact Hw.
    + exact Ht.
    + intro H. apply Hw. lra.
Qed.

(** ** Hovering *)

Lemma nth_error_update_nth_other {A : Type} (f : A -> A) (l : list A) (i j : nat) :
  i <> j -> nth_error (update_nth i f l) j = nth_error l j.
Proof.
  revert i j. induction l as [| a l IH]; intros [| i] [| j] H; simpl; auto.
  congruence.
Qed.

Lemma line_at_restyle_at_other (c : Chart) (gi li gj lj : nat) (col : string) (w : Q) :
  gi <> gj \/ li <> lj ->
  line_at (restyle_at gi li col w c) gj lj = line_at c gj lj.
Proof.
  intro H. unfold line_at, restyle_at. fields.
  destruct (Nat.eq_dec gi gj) as [-> | Hg].
  - rewrite nth_error_update_nth.
    destruct (nth_error (groups c) gj) as [g |]; simpl; [| reflexivity].
    apply nth_error_update_nth_other. tauto.
  - now rewrite nth_error_update_nth_other.
Qed.

Lemma line_at_restyle_at_exists (c : Chart) (gi li gj lj : nat) (col : string) (w : Q) :
  line_at c gj lj <> None -> line_at (restyle_at gi li col w c) gj lj <> None.
Proof.
  intro H.
  destruct (Nat.eq_dec gi gj) as [-> | Hg]; [destruct (Nat.eq_dec li lj) as [-> | Hl] |].
  - rewrite line_at_restyle_at. destruct (line_at c gj lj); [discriminate | congruence].
  - rewrite line_at_restyle_at_other by tauto. exact H.
  - rewrite line_at_restyle_at_other by tauto. exact H.
Qed.

(** What a hover does while the tooltip is visible. *)
Lemma mouseover_shows (c : Chart) (gi li : nat) (m : TextMetrics) (l : SpikeLine)
    (h : Handlers) :
  line_at c gi li = Some l -> handlers l = Some h ->
  tooltip_visible (tooltipRef c) = true -> axesRef c <> None ->
  exists els,
    map tag_of els = [rect; text; text] /\
    mouseover c gi li m =
    Some (set_tooltipEls (tooltipEls c ++ els)
            (restyle_at gi li (spikes_highlightColor (spikesStyle (h_props h)))
               (spikes_highlightWidth (spikesStyle (h_props h))) c)).
Proof.
  intros Hl Hh Hv Ha. unfold mouseover. rewrite Hl, Hh.
  destruct (axesRef c) as [a |] eqn:Ea; [| congruence].
  unfold handleShowTooltip, tooltipX, tooltipY, restyle_at. fields.
  rewrite Hv, Ea. simpl negb. cbv iota.
  eexists. split; [| reflexivity]. reflexivity.
Qed.

Lemma line_at_set_tooltipEls (els : list TooltipElement) (c : Chart) (gi li : nat) :
  line_at (set_tooltipEls els c) gi li = line_at c gi li.
Proof. reflexivity. Qed.

Lemma handleHideTooltip_visible (p : Props) (c : Chart) (gi li : nat) :
  tooltip_visible (tooltipRef c) = true ->
  handleHideTooltip p c gi li =
  set_tooltipEls []
    (restyle_at gi li (spikes_color (spikesStyle p)) (spikes_lineWidth (spikesStyle p)) c).
Proof.
  intro Hv. unfold handleHideTooltip, restyle_at. fields. now rewrite Hv.
Qed.

(** X17.  A hover while the tooltip is visible highlights the spike with
    the highlight colour and width of the props its listeners were created
    with; leaving it gives the spike the colour and line width of those
    props and removes the tooltip.  No other line changes, and the spike
    keeps its datum, its position and its listeners. *)
Theorem hover_then_leave_restores_the_spike
    (c : Chart) (gi li : nat) (m : TextMetrics) (l : SpikeLine) (h : Handlers) :
  line_at c gi li = Some l -> handlers l = Some h ->
  tooltip_visible (tooltipRef c) = true -> axesRef c <> None ->
  exists c1 c2,
    mouseover c gi li m = Some c1 /\
    line_at c1 gi li =
      Some (restyle (spikes_highlightColor (spikesStyle (h_props h)))
              (spikes_highlightWidth (spikesStyle (h_props h))) l) /\
    mouseleave c1 gi li = Some c2 /\
    tooltipEls c2 = [] /\
    line_at c2 gi li =
      Some (restyle (spikes_color (spikesStyle (h_props h)))
              (spikes_lineWidth (spikesStyle (h_props h))) l) /\
    forall gj lj, gi <> gj \/ li <> lj -> line_at c2 gj lj = line_at c gj lj.
Proof.
  intros Hl Hh Hv Ha.
  destruct (mouseover_shows c gi li m l h Hl Hh Hv Ha) as (els & _ & Hover).
  eexists. eexists. split; [exact Hover |].
  set (c0 := restyle_at gi li (spikes_highlightColor (spikesStyle (h_props h)))
               (spikes_highlightWidth (spikesStyle (h_props h))) c).
  assert (Hl0 : line_at c0 gi li =
                Some (restyle (spikes_highlightColor (spikesStyle (h_props h)))
                        (spikes_highlightWidth (spikesStyle (h_props h))) l)).
  { unfold c0. now rewrite line_at_restyle_at, Hl. }
  split; [now rewrite line_at_set_tooltipEls |].
  unfold mouseleave. rewrite line_at_set_tooltipEls, Hl0.
  cbn [handlers restyle]. rewrite Hh.
  rewrite handleHideTooltip_visible by exact Hv.
  split; [reflexivity |]. split; [reflexivity |]. split.
  - rewrite line_at_set_tooltipEls, line_at_restyle_at, line_at_set_tooltipEls.
    rewrite line_at_restyle_at, Hl. reflexivity.
  - intros gj lj Hne.
    rewrite line_at_set_tooltipEls, line_at_restyle_at_other by exact Hne.
    rewrite line_at_set_tooltipEls.
    now apply line_at_restyle_at_other.
Qed.

(** X18.  Mouse-leave removes tooltip elements only while the tooltip is
    visible.  So a tooltip that is on screen when the style is turned off
    stays there: the pass with the new style does not remove it, and the
    mouse-leave that follows does not either. *)
Theorem tooltip_turned_off_while_shown_stays
    (pOff : Props) (c : Chart) (t : TimeRangeType) (gi li : nat) :
  tooltip_visible (tooltip pOff) = false ->
  line_at (updatePlot pOff c t) gi li <> None ->
  exists c',
    mouseleave (updatePlot pOff c t) gi li = Some c' /\
    tooltipEls c' = tooltipEls c.
Proof.
  intros Hoff Hl. unfold mouseleave.
  destruct (line_at (updatePlot pOff c t) gi li) as [l |]; [| congruence].
  destruct (handlers l) as [h |].
  - eexists. split; [reflexivity |].
    unfold handleHideTooltip, restyle_at. fields.
    rewrite updatePlot_tooltipRef, Hoff. fields. apply updatePlot_tooltipEls.
  - eexists. split; [reflexivity |]. apply updatePlot_tooltipEls.
Qed.

(** X19.  A hover adds its three tooltip elements to whatever tooltip
    elements are there: two hovers with no mouse-leave in between (the
    first spike was removed or moved from under the pointer) leave two
    tooltips.  A single mouse-leave, on any spike, then removes them
    all. *)
Theorem tooltips_accumulate_until_a_leave
    (c : Chart) (gi li gj lj : nat) (m m' : TextMetrics) :
  handlers_attached c -> tooltip_visible (tooltipRef c) = true ->
  axesRef c <> None ->
  line_at c gi li <> None -> line_at c gj lj <> None ->
  exists c1 c2 c3,
    mouseover c gi li m = Some c1 /\
    mouseover c1 gj lj m' = Some c2 /\
    map tag_of (tooltipEls c2) =
      map tag_of (tooltipEls c) ++ [rect; text; text; rect; text; text] /\
    mouseleave c2 gi li = Some c3 /\
    tooltipEls c3 = [].
Proof.
  intros Hh Hv Ha Hi Hj.
  destruct (line_at c gi li) as [l |] eqn:El; [| congruence].
  pose proof (handlers_attached_line c gi li l Hh El) as Hsome.
  destruct (handlers l) as [h |] eqn:Eh; [| congruence].
  destruct (mouseover_shows c gi li m l h El Eh Hv Ha) as (els & Htags & Hover).
  set (c1 := set_tooltipEls (tooltipEls c ++ els)
               (restyle_at gi li (spikes_highlightColor (spikesStyle (h_props h)))
                  (spikes_highlightWidth (spikesStyle (h_props h))) c)) in *.
  assert (Hh1 : handlers_attached c1).
  { unfold handlers_attached, c1. fields.
    apply (restyle_at_handlers_attached c gi li _ _ Hh). }
  assert (Hj1 : line_at c1 gj lj <> None).
  { unfold c1. rewrite line_at_set_tooltipEls. now apply line_at_restyle_at_exists. }
  assert (Hi1 : line_at c1 gi li <> None).
  { unfold c1. rewrite line_at_set_tooltipEls. apply line_at_restyle_at_exists.
    congruence. }
  destruct (line_at c1 gj lj) as [l1 |] eqn:El1; [| congruence].
  pose proof (handlers_attached_line c1 gj lj l1 Hh1 El1) as Hsome1.
  destruct (handlers l1) as [h1 |] eqn:Eh1; [| congruence].
  destruct (mouseover_shows c1 gj lj m' l1 h1 El1 Eh1 Hv Ha)
    as (els1 & Htags1 & Hover1).
  set (c2 := set_tooltipEls (tooltipEls c1 ++ els1)
               (restyle_at gj lj (spikes_highlightColor (spikesStyle (h_props h1)))
                  (spikes_highlightWidth (spikesStyle (h_props h1))) c1)) in *.
  assert (Hh2 : handlers_attached c2).
  { unfold handlers_attached, c2. fields.
    apply (restyle_at_handlers_attached c1 gj lj _ _ Hh1). }
  assert (Hi2 : line_at c2 gi li <> None).
  { unfold c2. rewrite line_at_set_tooltipEls. now apply line_at_restyle_at_exists. }
  destruct (mouseleave_visible c2 gi li Hh2 Hv Hi2) as (c3 & Hleave & Hnil).
  exists c1, c2, c3. split; [exact Hover |]. split; [exact Hover1 |].
  split; [| split; assumption].
  unfold c2, c1. fields. rewrite !map_app, Htags, Htags1, <- app_assoc. reflexivity.
Qed.

(** ** No handler runs before the axes exist *)

Lemma update_nth_nil {A : Type} (i : nat) (f : A -> A) : update_nth i f [] = [].
Proof. now destruct i. Qed.

Lemma wired_beforeSeries (p : Props) (c : Chart) (t : TimeRangeType)
    (gs : list SeriesGroup) :
  container c = true -> wired (set_groups gs (beforeSeries p c t)).
Proof.
  intro Hc. split; fields.
  - now rewrite beforeSeries_container.
  - intro Ha. now apply beforeSeries_axesRef in Ha.
Qed.

(** Whether it runs to its end or throws at a series, a pass on an
    attached container leaves the axes in place. *)
Lemma wired_updatePlot_run (p : Props) (c c' : Chart) (t : TimeRangeType) :
  container c = true -> after (updatePlot_run p c t) = Some c' -> wired c'.
Proof.
  intros Hc H. unfold updatePlot_run in H. rewrite Hc in H. cbv zeta in H.
  destruct (forEachSeries p _ (seriesList p) _) as [gs | gs |];
    [destruct (seriesList p) | |]; simpl in H; try discriminate;
    injection H as <-; now apply wired_beforeSeries.
Qed.

Lemma updatePlot_run_axes (p : Props) (c : Chart) (t : TimeRangeType) :
  updatePlot_run p c t <> AxesUndefined.
Proof.
  unfold updatePlot_run. destruct (container c); [| discriminate]. cbv zeta.
  destruct (forEachSeries p _ (seriesList p) _) as [gs | gs |];
    [destruct (seriesList p) | |]; discriminate.
Qed.

Lemma wired_gesture_run (c c' : Chart) (g : Gesture) :
  wired c -> after (gesture_run c g) = Some c' -> wired c'.
Proof.
  intros W Hg. pose proof W as (Hc & Hw). unfold gesture_run in Hg.
  destruct (dragZoom c) as [p |] eqn:Ed; [| injection Hg as <-; exact W].
  destruct g as [dx | k offsetX].
  - unfold onPan_run in Hg. destruct (axesRef c); [| discriminate].
    cbv zeta in Hg. eapply wired_updatePlot_run; [| exact Hg]. exact Hc.
  - unfold onZoom_run in Hg. destruct (axesRef c); [| discriminate].
    cbv zeta in Hg. eapply wired_updatePlot_run; [| exact Hg]. exact Hc.
Qed.

Lemma wired_restyle_at (c : Chart) (gi li : nat) (col : string) (w : Q) :
  wired c -> wired (restyle_at gi li col w c).
Proof.
  intros (Hc & Hw). unfold restyle_at. split; [exact Hc |]. fields.
  intro Ha. destruct (Hw Ha) as (Hg & Hd). rewrite Hg. split; [| exact Hd].
  apply update_nth_nil.
Qed.

Lemma wired_set_tooltipEls (els : list TooltipElement) (c : Chart) :
  wired c -> wired (set_tooltipEls els c).
Proof. intro H. exact H. Qed.

Lemma wired_mouseover (c c' : Chart) (gi li : nat) (m : TextMetrics) :
  wired c -> mouseover c gi li m = Some c' -> wired c'.
Proof.
  intros Hw Hm. unfold mouseover in Hm.
  destruct (line_at c gi li) as [l |]; [| discriminate].
  destruct (handlers l) as [h |]; [| injection Hm as <-; exact Hw].
  unfold handleShowTooltip in Hm.
  destruct (negb (tooltip_visible (tooltipRef c))); [injection Hm as <-; exact Hw |].
  match type of Hm with
  | context [restyle_at gi li ?col ?w c] =>
      pose proof (wired_restyle_at c gi li col w Hw) as Hw1;
      set (c1 := restyle_at gi li col w c) in *
  end.
  destruct (tooltip_visible (tooltipRef c1)); [| injection Hm as <-; exact Hw1].
  destruct (tooltipX _ c1 _ _); [| discriminate].
  destruct (tooltipY _ c1 _ _); [| discriminate].
  injection Hm as <-. now apply wired_set_tooltipEls.
Qed.

Lemma wired_mouseleave (c c' : Chart) (gi li : nat) :
  wired c -> mouseleave c gi li = Some c' -> wired c'.
Proof.
  intros Hw Hm. unfold mouseleave in Hm.
  destruct (line_at c gi li) as [l |]; [| discriminate].
  destruct (handlers l) as [h |]; [| injection Hm as <-; exact Hw].
  injection Hm as <-. unfold handleHideTooltip.
  match goal with
  | |- context [restyle_at gi li ?col ?w c] =>
      pose proof (wired_restyle_at c gi li col w Hw) as Hw1;
      set (c1 := restyle_at gi li col w c) in *
  end.
  destruct (tooltip_visible (tooltipRef c1)); [| exact Hw1].
  now apply wired_set_tooltipEls.
Qed.

Lemma map_spikes_nil (f : SpikeLine -> SpikeLine) : map_spikes f [] = [].
Proof. reflexivity. Qed.

Lemma wired_handleShowMagnify
    (BarMagnifier : Q -> Q -> Q -> Q -> LensTransformation)
    (p : Props) (c c' : Chart) (x y : Q) :
  wired c -> handleShowMagnify BarMagnifier p c x y = Some c' -> wired c'.
Proof.
  intros W Hm. pose proof W as (Hc & Hw). unfold handleShowMagnify in Hm.
  rewrite Hc in Hm.
  destruct (magnifierRef c) as [path |]; [| injection Hm as <-; exact W].
  unfold with_xScale in Hm. fields_in Hm.
  destruct (mouseInPlotArea p x y && Qle_bool 1 (Math_abs (x - mouseCoordsRef c))).
  - destruct (axesRef c) as [a |] eqn:Ea.
    + injection Hm as <-. split; [exact Hc |]. fields. rewrite Ea. discriminate.
    + destruct (Hw eq_refl) as (Hg & Hd). rewrite Hg in Hm. simpl in Hm.
      injection Hm as <-. split; [exact Hc |]. fields. auto.
  - destruct (negb (mouseInPlotArea p x y)).
    + destruct (axesRef c) as [a |] eqn:Ea.
      * injection Hm as <-. split; [exact Hc |]. fields. rewrite Ea. discriminate.
      * destruct (Hw eq_refl) as (Hg & Hd). rewrite Hg in Hm. simpl in Hm.
        injection Hm as <-. split; [exact Hc |]. fields. auto.
    + injection Hm as <-. split; [exact Hc |]. fields. exact Hw.
Qed.

Lemma wired_handleShowTracker (p : Props) (c : Chart) (x y : Q) :
  wired c -> wired (handleShowTracker p c x y).
Proof.
  intro Hw. unfold handleShowTracker.
  destruct (container c); [| exact Hw].
  destruct (trackerRef c); exact Hw.
Qed.

Lemma wired_reachable (BarMagnifier : Q -> Q -> Q -> Q -> LensTransformation)
    (c : Chart) :
  reachable BarMagnifier c -> wired c.
Proof.
  induction 1 as [p | c c' e Hr IH Hf].
  - split; [reflexivity |]. intros _. split; reflexivity.
  - destruct e as [p t | g | gi li m | gi li | x y]; cbn [fire] in Hf.
    + eapply wired_updatePlot_run; [| exact Hf]. apply IH.
    + eapply wired_gesture_run; eassumption.
    + destruct (line_at c gi li); [| injection Hf as <-; exact IH].
      destruct (mouseover c gi li m) as [c1 |] eqn:Em; [| discriminate].
      injection Hf as <-. eapply wired_mouseover; eassumption.
    + destruct (mouseleave c gi li) as [c1 |] eqn:Em;
        [| injection Hf as <-; exact IH].
      injection Hf as <-. eapply wired_mouseleave; eassumption.
    + destruct (mousemove BarMagnifier c x y) as [c1 |] eqn:Em; [| discriminate].
      injection Hf as <-. unfold mousemove in Em.
      destruct (onMousemove c) as [[p | p] |].
      * eapply wired_handleShowMagnify; eassumption.
      * injection Em as <-. now apply wired_handleShowTracker.
      * injection Em as <-. exact IH.
Qed.

Lemma line_at_wired_axes (c : Chart) (gi li : nat) :
  wired c -> line_at c gi li <> None -> axesRef c <> None.
Proof.
  intros (_ & Hw) Hl Ha. destruct (Hw Ha) as (Hg & _).
  unfold line_at in Hl. rewrite Hg in Hl. now destruct gi.
Qed.

(** X20.  The handlers read the scales through [axesRef.current!]
    without a check.  On every chart a mounted component can reach by
    renders, drags, zooms and mouse events, no such read finds the axes
    undefined, whichever event comes next.  Before the first pass there is
    no listener and no spike; every pass that registers one has created the
    axes before it comes to the series, so that this also holds after a
    pass that threw at the selector of a series. *)
Theorem handlers_never_miss_the_axes
    (BarMagnifier : Q -> Q -> Q -> Q -> LensTransformation) (c : Chart) (e : Event) :
  reachable BarMagnifier c -> fire BarMagnifier c e <> AxesUndefined.
Proof.
  intro Hr. pose proof (wired_reachable BarMagnifier c Hr) as Hw.
  destruct e as [p t | g | gi li m | gi li | x y]; cbn [fire].
  - apply updatePlot_run_axes.
  - unfold gesture_run. destruct (dragZoom c) as [p |] eqn:Ed; [| discriminate].
    destruct (axesRef c) as [a |] eqn:Ea.
    + destruct g; unfold onPan_run, onZoom_run; rewrite Ea; cbv zeta;
        apply updatePlot_run_axes.
    + destruct Hw as (_ & Hw). destruct (Hw Ea) as (_ & Hno). congruence.
  - destruct (line_at c gi li) as [l |] eqn:El; [| discriminate].
    assert (Ha : axesRef c <> None).
    { apply (line_at_wired_axes c gi li Hw). congruence. }
    unfold mouseover. rewrite El.
    destruct (handlers l) as [h |]; [| discriminate].
    destruct (axesRef c) as [a |] eqn:Ea; [| congruence].
    unfold handleShowTooltip, tooltipX, tooltipY, restyle_at. fields. rewrite Ea.
    destruct (tooltip_visible (tooltipRef c)); simpl; discriminate.
  - destruct (mouseleave c gi li); discriminate.
  - unfold mousemove. destruct (onMousemove c) as [[p | p] |]; try discriminate.
    unfold handleShowMagnify, with_xScale. fields.
    destruct (container c); [| discriminate].
    destruct (magnifierRef c); [| discriminate].
    destruct (axesRef c) as [a |] eqn:Ea.
    + destruct (mouseInPlotArea p x y && Qle_bool 1 (Math_abs (x - mouseCoordsRef c)));
        [discriminate |].
      destruct (negb (mouseInPlotArea p x y)); discriminate.
    + destruct Hw as (_ & Hw). destruct (Hw Ea) as (Hg & _). rewrite Hg.
      cbn [has_spikes existsb].
      destruct (mouseInPlotArea p x y && Qle_bool 1 (Math_abs (x - mouseCoordsRef c)));
        [discriminate |].
      destruct (negb (mouseInPlotArea p x y)); discriminate.
Qed.

(** ** Repeated passes and stale closures *)

Section Idempotence.

Variables (p : Props) (r : TimeRangeType) (xs : d3.ScaleLinear) (lineHeight : Q).




End Idempotence.




(** X22.  The drag and zoom listeners are registered anew by every pass
    and close over its props, but the mousemove listener is registered
    only by the pass that sets its overlay up: after a later render with
    other props (another size, other margins), the tracker's listener
    still tests the pointer against the plot area of the props it was
    registered with. *)
Theorem mousemove_listener_keeps_old_props
    (BarMagnifier : Q -> Q -> Q -> Q -> LensTransformation)
    (p p' : Props) (c : Chart) (t t' : TimeRangeType) (x y : Q) :
  container c = true ->
  magnifier_visible (magnifier p) = false -> magnifier_visible (magnifier p') = false ->
  tracker_visible (tracker p) = true -> trackerRef c = None ->
  tracker_visible (tracker p') = true ->
  dragZoom (updatePlot p' (updatePlot p c t) t') = Some p' /\
  onMousemove (updatePlot p' (updatePlot p c t) t') = Some (ShowTracker p) /\
  exists c',
    mousemove BarMagnifier (updatePlot p' (updatePlot p c t) t') x y = Some c' /\
    option_map trk_opacity (trackerRef c') =
      Some (if mouseInPlotArea p x y then 1 else 0).
Proof.
  intros Hc Hm Hm' Ht Hnone Ht'.
  set (c1 := updatePlot p c t).
  assert (Hc1 : container c1 = true) by (unfold c1; now rewrite updatePlot_container).
  assert (Hm1 : magnifierRef c1 = None).
  { destruct (magnifierRef c1) eqn:E; [| reflexivity].
    assert (H : magnifierRef c1 <> None) by congruence.
    apply (overlay_refs_iff p c t Hc) in H. congruence. }
  assert (Ht1 : trackerRef c1 <> None) by now apply (overlay_refs_iff p c t Hc).
  assert (Hl1 : onMousemove c1 = Some (ShowTracker p)).
  { unfold c1. rewrite updatePlot_onMousemove by exact Hc. unfold setupTracker.
    rewrite setupMagnifier_trackerRef. fields. now rewrite Ht, Hnone. }
  assert (Hl2 : onMousemove (updatePlot p' c1 t') = Some (ShowTracker p)).
  { rewrite updatePlot_onMousemove by exact Hc1. unfold setupTracker.
    rewrite setupMagnifier_trackerRef. fields.
    destruct (trackerRef c1) as [tr |] eqn:Etr; [| congruence].
    rewrite Ht'. unfold setupMagnifier. fields. now rewrite Hm', Hm1. }
  split; [now apply updatePlot_dragZoom |]. split; [exact Hl2 |].
  unfold mousemove. rewrite Hl2. eexists. split; [reflexivity |].
  unfold handleShowTracker. rewrite updatePlot_container, Hc1.
  assert (Ht2 : trackerRef (updatePlot p' c1 t') <> None)
    by now apply (overlay_refs_iff p' c1 t' Hc1).
  destruct (trackerRef (updatePlot p' c1 t')) as [path |]; [| congruence].
  reflexivity.
Qed.

(** ** The further properties at concrete charts *)


Lemma tooltipY_is_positive_witness :
  axesRef secondPass = Some secondPassAxes /\
  0 <= seriesY (yScale secondPassAxes) "n0" + top (margin (scenarioProps false [n0])) /\
  0 < spikeLineHeight (scenarioProps false [n0]) /\
  exists ty, tooltipY (scenarioProps false [n0]) secondPass "n0" 26 = Some ty /\ 0 < ty.
Proof.
  assert (H1 : axesRef secondPass = Some secondPassAxes) by (vm_compute; reflexivity).
  assert (H2 : 0 <= seriesY (yScale secondPassAxes) "n0"
                    + top (margin (scenarioProps false [n0])))
    by (vm_compute; discriminate).
  assert (H3 : 0 < spikeLineHeight (scenarioProps false [n0])) by reflexivity.
  split; [exact H1 |]. split; [exact H2 |]. split; [exact H3 |].
  destruct (tooltipY_is_positive (scenarioProps false [n0]) secondPass secondPassAxes
              "n0" 26 H1 H2 H3) as (ty & Hy & Hpos & _).
  exists ty. split; [exact Hy | exact Hpos].
Defined.










Lemma overlay_refs_follow_visibility_witness :
  container secondPass = true /\
  (magnifierRef (updatePlot (trackerProps 900) secondPass (TimeRange 0 1000)) <> None
   <-> magnifier_visible (magnifier (trackerProps 900)) = true) /\
  (trackerRef (updatePlot (trackerProps 900) secondPass (TimeRange 0 1000)) <> None
   <-> tracker_visible (tracker (trackerProps 900)) = true).
Proof.
  assert (H : container secondPass = true) by reflexivity.
  split; [exact H |].
  exact (overlay_refs_follow_visibility (trackerProps 900) secondPass
           (TimeRange 0 1000) H).
Defined.

Lemma tracker_listener_replaces_magnifier_listener_witness :
  container (mounted (scenarioProps false [n0])) = true /\
  magnifier_visible (magnifier (scenarioProps false [n0])) = true /\
  tracker_visible (tracker (scenarioProps false [n0])) = true /\
  magnifierRef firstPass <> None /\
  onMousemove firstPass = Some (ShowTracker (scenarioProps false [n0])) /\
  exists c',
    mousemove flatLens firstPass 100 100 = Some c' /\
    magnifierRef c' = magnifierRef firstPass /\
    option_map trk_x1 (trackerRef c') = Some 100.
Proof.
  assert (H1 : container (mounted (scenarioProps false [n0])) = true) by reflexivity.
  split; [exact H1 |]. split; [reflexivity |]. split; [reflexivity |].
  exact (tracker_listener_replaces_magnifier_listener flatLens
           (scenarioProps false [n0]) (mounted (scenarioProps false [n0]))
           (TimeRange 0 1000) 100 100 H1 eq_refl eq_refl eq_refl eq_refl).
Defined.

Lemma magnifier_small_moves_only_move_the_lens_witness :
  container afterLensMove = true /\
  magnifierRef afterLensMove = Some (lensOf afterLensMove) /\
  mouseInPlotArea (scenarioProps false [n0]) (201 # 2) 100 = true /\
  Math_abs ((201 # 2) - mouseCoordsRef afterLensMove) < 1 /\
  exists c',
    handleShowMagnify flatLens (scenarioProps false [n0]) afterLensMove (201 # 2) 100
      = Some c' /\
    groups c' = groups afterLensMove /\
    mouseCoordsRef c' = mouseCoordsRef afterLensMove.
Proof.
  assert (H1 : container afterLensMove = true) by (vm_compute; reflexivity).
  assert (H2 : magnifierRef afterLensMove = Some (lensOf afterLensMove))
    by (vm_compute; reflexivity).
  assert (H3 : mouseInPlotArea (scenarioProps false [n0]) (201 # 2) 100 = true)
    by (vm_compute; reflexivity).
  assert (H4 : Math_abs ((201 # 2) - mouseCoordsRef afterLensMove) < 1)
    by (vm_compute; reflexivity).
  split; [exact H1 |]. split; [exact H2 |]. split; [exact H3 |]. split; [exact H4 |].
  destruct (magnifier_small_moves_only_move_the_lens flatLens
              (scenarioProps false [n0]) afterLensMove (201 # 2) 100
              (lensOf afterLensMove) H1 H2 H3 H4) as (c' & Hm & Hg & Hx & _).
  exists c'. split; [exact Hm |]. split; [exact Hg | exact Hx].
Defined.

Lemma magnifier_outside_restores_the_lines_witness :
  container afterLensMove = true /\
  magnifierRef afterLensMove = Some (lensOf afterLensMove) /\
  mouseInPlotArea (scenarioProps false [n0]) 10 100 = false /\
  axesRef afterLensMove = Some secondPassAxes /\
  exists c',
    handleShowMagnify flatLens (scenarioProps false [n0]) afterLensMove 10 100
      = Some c' /\
    mouseCoordsRef c' = 0.
Proof.
  assert (H1 : container afterLensMove = true) by (vm_compute; reflexivity).
  assert (H2 : magnifierRef afterLensMove = Some (lensOf afterLensMove))
    by (vm_compute; reflexivity).
  assert (H3 : mouseInPlotArea (scenarioProps false [n0]) 10 100 = false)
    by (vm_compute; reflexivity).
  assert (H4 : axesRef afterLensMove = Some secondPassAxes)
    by (vm_compute; reflexivity).
  split; [exact H1 |]. split; [exact H2 |]. split; [exact H3 |]. split; [exact H4 |].
  destruct (magnifier_outside_restores_the_lines flatLens
              (scenarioProps false [n0]) afterLensMove 10 100
              (lensOf afterLensMove) H1 H2 secondPassAxes H3 H4)
    as (c' & Hm & Hx & _).
  exists c'. split; [exact Hm | exact Hx].
Defined.


Lemma pass_scale_converts_pixels_to_times_witness :
  container firstPass = true /\
  ~ end_ (TimeRange 0 1000) - start (TimeRange 0 1000) == 0 /\
  ~ dim_width (plotDimensions (scenarioProps false [n0])) == 0 /\
  exists a,
    axesRef (updatePlot (scenarioProps false [n0]) firstPass (TimeRange 0 1000))
      = Some a /\
    panDelta (xScale a) (start (TimeRange 0 1000)) (-249)
      == -249 * (end_ (TimeRange 0 1000) - start (TimeRange 0 1000))
         / dim_width (plotDimensions (scenarioProps false [n0])).
Proof.
  assert (H1 : container firstPass = true) by reflexivity.
  assert (H2 : ~ end_ (TimeRange 0 1000) - start (TimeRange 0 1000) == 0)
    by (vm_compute; discriminate).
  assert (H3 : ~ dim_width (plotDimensions (scenarioProps false [n0])) == 0)
    by (vm_compute; discriminate).
  split; [exact H1 |]. split; [exact H2 |]. split; [exact H3 |].
  destruct (pass_scale_converts_pixels_to_times (scenarioProps false [n0]) firstPass
              (TimeRange 0 1000) 400 (-249) H1 H2 H3) as (a & Ha & _ & Hp).
  exists a. split; [exact Ha | exact Hp].
Defined.

Lemma hover_then_leave_restores_the_spike_witness :
  line_at visiblePass 0 0 = Some (lineOf visiblePass 0 0) /\
  handlers (lineOf visiblePass 0 0) = Some (mkHandlers (scenarioProps false [n0]) "n0") /\
  tooltip_visible (tooltipRef visiblePass) = true /\
  axesRef visiblePass <> None /\
  exists c1 c2,
    mouseover visiblePass 0 0 sampleMetrics = Some c1 /\
    mouseleave c1 0 0 = Some c2 /\
    tooltipEls c2 = [].
Proof.
  assert (H1 : line_at visiblePass 0 0 = Some (lineOf visiblePass 0 0))
    by (vm_compute; reflexivity).
  assert (H2 : handlers (lineOf visiblePass 0 0)
               = Some (mkHandlers (scenarioProps false [n0]) "n0"))
    by (vm_compute; reflexivity).
  assert (H3 : tooltip_visible (tooltipRef visiblePass) = true) by reflexivity.
  assert (H4 : axesRef visiblePass <> None) by (vm_compute; discriminate).
  split; [exact H1 |]. split; [exact H2 |]. split; [exact H3 |]. split; [exact H4 |].
  destruct (hover_then_leave_restores_the_spike visiblePass 0 0 sampleMetrics
              (lineOf visiblePass 0 0) (mkHandlers (scenarioProps false [n0]) "n0")
              H1 H2 H3 H4) as (c1 & c2 & Ho & _ & Hl & Hn & _).
  exists c1, c2. split; [exact Ho |]. split; [exact Hl | exact Hn].
Defined.

Lemma tooltip_turned_off_while_shown_stays_witness :
  tooltip_visible (tooltip (scenarioProps false [n0])) = false /\
  line_at (updatePlot (scenarioProps false [n0]) visiblePass (TimeRange 0 1000)) 0 0
    <> None /\
  exists c',
    mouseleave (updatePlot (scenarioProps false [n0]) visiblePass (TimeRange 0 1000))
      0 0 = Some c' /\
    tooltipEls c' = tooltipEls visiblePass.
Proof.
  assert (H2 : line_at (updatePlot (scenarioProps false [n0]) visiblePass
                          (TimeRange 0 1000)) 0 0 <> None)
    by (vm_compute; discriminate).
  split; [reflexivity |]. split; [exact H2 |].
  exact (tooltip_turned_off_while_shown_stays (scenarioProps false [n0]) visiblePass
           (TimeRange 0 1000) 0 0 eq_refl H2).
Defined.

Lemma visiblePass_handlers_attached : handlers_attached visiblePass.
Proof.
  unfold visiblePass, secondPass, firstPass.
  repeat apply updatePlot_handlers_attached. apply mounted_handlers_attached.
Defined.

Lemma tooltips_accumulate_until_a_leave_witness :
  handlers_attached visiblePass /\
  tooltip_visible (tooltipRef visiblePass) = true /\
  axesRef visiblePass <> None /\
  line_at visiblePass 0 0 <> None /\ line_at visiblePass 0 1 <> None /\
  exists c1 c2 c3,
    mouseover visiblePass 0 0 sampleMetrics = Some c1 /\
    mouseover c1 0 1 sampleMetrics = Some c2 /\
    map tag_of (tooltipEls c2) =
      map tag_of (tooltipEls visiblePass) ++ [rect; text; text; rect; text; text] /\
    mouseleave c2 0 0 = Some c3 /\
    tooltipEls c3 = [].
Proof.
  assert (H2 : tooltip_visible (tooltipRef visiblePass) = true) by reflexivity.
  assert (H3 : axesRef visiblePass <> None) by (vm_compute; discriminate).
  assert (H4 : line_at visiblePass 0 0 <> None) by (vm_compute; discriminate).
  assert (H5 : line_at visiblePass 0 1 <> None) by (vm_compute; discriminate).
  split; [exact visiblePass_handlers_attached |]. split; [exact H2 |].
  split; [exact H3 |]. split; [exact H4 |]. split; [exact H5 |].
  exact (tooltips_accumulate_until_a_leave visiblePass 0 0 0 1 sampleMetrics
           sampleMetrics visiblePass_handlers_attached H2 H3 H4 H5).
Defined.

Lemma firstPass_reachable : reachable flatLens firstPass.
Proof.
  apply (reach_fire flatLens (mounted (scenarioProps false [n0])) firstPass
           (Render (scenarioProps false [n0]) (TimeRange 0 1000))).
  - apply reach_mounted.
  - reflexivity.
Defined.

Lemma handlers_never_miss_the_axes_witness :
  reachable flatLens firstPass /\
  fire flatLens firstPass (Gestured (Zoom 2 400)) <> AxesUndefined.
Proof.
  split; [exact firstPass_reachable |].
  exact (handlers_never_miss_the_axes flatLens firstPass (Gestured (Zoom 2 400))
           firstPass_reachable).
Defined.


Lemma mousemove_listener_keeps_old_props_witness :
  container (mounted (trackerProps 900)) = true /\
  trackerRef (mounted (trackerProps 900)) = None /\
  dragZoom (updatePlot (trackerProps 1200)
              (updatePlot (trackerProps 900) (mounted (trackerProps 900))
                 (TimeRange 0 1000)) (TimeRange 0 1000))
    = Some (trackerProps 1200) /\
  onMousemove (updatePlot (trackerProps 1200)
                 (updatePlot (trackerProps 900) (mounted (trackerProps 900))
                    (TimeRange 0 1000)) (TimeRange 0 1000))
    = Some (ShowTracker (trackerProps 900)) /\
  exists c',
    mousemove flatLens
      (updatePlot (trackerProps 1200)
         (updatePlot (trackerProps 900) (mounted (trackerProps 900))
            (TimeRange 0 1000)) (TimeRange 0 1000)) 1000 100 = Some c' /\
    option_map trk_opacity (trackerRef c') =
      Some (if mouseInPlotArea (trackerProps 900) 1000 100 then 1 else 0).
Proof.
  assert (H1 : container (mounted (trackerProps 900)) = true) by reflexivity.
  assert (H2 : trackerRef (mounted (trackerProps 900)) = None) by reflexivity.
  split; [exact H1 |]. split; [exact H2 |].
  exact (mousemove_listener_keeps_old_props flatLens (trackerProps 900)
           (trackerProps 1200) (mounted (trackerProps 900)) (TimeRange 0 1000)
           (TimeRange 0 1000) 1000 100 H1 eq_refl eq_refl eq_refl H2 eq_refl).
Defined.
